(** * RTOS-Lab: temperature pipeline of [Demo/CORTEX_LM3S811_GCC/main.c]

    A shallow embedding of the application tasks of the demo (sensor,
    low-pass filter, graph renderer, UART command reader, task statistics)
    and the properties of its specification.

    The target is a 32-bit Cortex-M3: [int] and [unsigned int] are 32 bits
    wide, [unsigned long] and [uint32_t] too.  C integers are modelled as
    [Z] with the wrap-around written out; arrays as lists accessed with
    stdpp's lookup and insert; tasks as step functions on their local
    variables, one step per loop iteration, the values read from queues,
    from the UART and from shared variables being arguments of the step. *)

From Stdlib Require Import ZArith List Lia String Ascii Bool.
From stdpp Require Import base option list.

Local Open Scope Z_scope.

(** ** Machine integers *)

Module CInt.

Definition int_min : Z := - 2 ^ 31.
Definition int_max : Z := 2 ^ 31 - 1.

(** Value of an [int] expression: two's complement wrap-around. *)
Definition wrap_int (z : Z) : Z := (z + 2 ^ 31) mod 2 ^ 32 - 2 ^ 31.

(** Value of an [unsigned int] / [uint32_t] expression. *)
Definition wrap_uint (z : Z) : Z := z mod 2 ^ 32.

(** Value stored in an [unsigned char]. *)
Definition wrap_uchar (z : Z) : Z := z mod 2 ^ 8.

Definition in_int (z : Z) : Prop := int_min <= z <= int_max.

End CInt.

Import CInt.

(** ** Constants of [main.c] *)

Definition MIN_TEMPERATURE : Z := 15.
Definition TEMPERATURE_RANGE : Z := 20.
Definition MAX_HEIGHT : Z := 15.
Definition DISPLAY_BUFFER_OFFSET : Z := 96.
Definition Y_AXIS_HEIGHT : Z := 16.
Definition X_AXIS_POSITION : Z := 15.
Definition MULTIPLIER : Z := 1103515245.
Definition INCREMENT : Z := 12345.
Definition SHIFT_BITS : Z := 16.
Definition RESULT_MASK : Z := 0x7FFF.
Definition MAX_WINDOW_SIZE : Z := 100.
Definition MIN_WINDOW_SIZE : Z := 10.
Definition INPUT_BUFFER_SIZE : Z := 10.

(** ** Sample source: [pseudorandom] and [vSimulateTemperatureSensorTask] *)

Module Sensor.

(** [static unsigned int seed = 6789;] *)
Definition initial_seed : Z := 6789.

(** [pseudorandom]: the static seed is threaded explicitly; the result
    is the new seed and the returned value. *)
Definition pseudorandom (seed : Z) : Z * Z :=
  let seed' := wrap_uint (seed * MULTIPLIER + INCREMENT) in
  (seed', Z.land (Z.shiftr seed' SHIFT_BITS) RESULT_MASK).

(** One iteration of the sensor task: the sample sent to the raw queue.
    [%] is C's remainder, [Z.rem]. *)
Definition sensor_step (seed : Z) : Z * Z :=
  let '(seed', r) := pseudorandom seed in
  (seed', wrap_int (MIN_TEMPERATURE + Z.rem r (TEMPERATURE_RANGE + 1))).

(** The first [n] values returned by [pseudorandom]. *)
Fixpoint prng_outputs (n : nat) (seed : Z) : list Z :=
  match n with
  | O => []
  | S n' => let '(seed', r) := pseudorandom seed in r :: prng_outputs n' seed'
  end.

(** The first [n] samples the task sends. *)
Fixpoint sensor_samples (n : nat) (seed : Z) : list Z :=
  match n with
  | O => []
  | S n' => let '(seed', t) := sensor_step seed in t :: sensor_samples n' seed'
  end.

End Sensor.

(** ** Shared helpers *)

(** [for (int i = 0; i < n; i++) body], as a fold over [0 .. n-1]. *)
Definition for_loop {S : Type} (n : nat) (body : Z -> S -> S) (s : S) : S :=
  fold_left (fun acc i => body (Z.of_nat i) acc) (seq 0 n) s.

(** Read of [a[i]]; [None] is an access outside the array. *)
Definition array_get {A : Type} (a : list A) (i : Z) : option A :=
  if i <? 0 then None else a !! Z.to_nat i.

(** Undefined behaviour of the C code is kept apart from results. *)
Inductive fault : Type := OutOfBounds | ZeroDivisor.

Inductive outcome (A : Type) : Type :=
| Done (a : A)
| Undefined (f : fault).

Arguments Done {A} a.
Arguments Undefined {A} f.

Definition bind {A B : Type} (m : outcome A) (k : A -> outcome B) : outcome B :=
  match m with
  | Done a => k a
  | Undefined f => Undefined f
  end.

Notation "'let!' x ':=' m 'in' k" := (bind m (fun x => k))
  (at level 10, x pattern, m at level 200, k at level 200).

Definition read {A : Type} (a : list A) (i : Z) : outcome A :=
  match array_get a i with
  | Some v => Done v
  | None => Undefined OutOfBounds
  end.

(** The divisor of [/] and [%] must not be zero. *)
Definition nonzero (d : Z) : outcome Z :=
  if d =? 0 then Undefined ZeroDivisor else Done d.

(** Control characters of the messages. *)
Definition NUL : ascii := "000"%char.
Definition LF : ascii := "010"%char.
Definition CR : ascii := "013"%char.
Definition lf : string := String LF EmptyString.
Definition crlf : string := String CR (String LF EmptyString).

(** ** Adaptive filter: [vLowPassFilterTask] *)

Module Filter.

(** The task's local variables.  [buffer] is the array of
    [MAX_WINDOW_SIZE] ints obtained from [pvPortMalloc]. *)
Record state : Type := mkState {
  window_size : Z;
  buffer : list Z;
  index : Z;
  sum : Z;
  count : Z
}.

(** The code before the loop, for an allocation that succeeds.  [shared]
    is the value of [filter_window_size] read at task start, [heap] the
    contents of the block [pvPortMalloc] returned: the task does not
    write to it before the loop. *)
Definition task_init (shared : Z) (heap : list Z) : state :=
  {| window_size := shared; buffer := heap; index := 0; sum := 0; count := 0 |}.

Definition updated_notice : string := (lf ++ "Filter window size updated." ++ lf)%string.

(** Lines 318-328: compare the shared value with the active window size
    and reset on a change.  The second component is the text sent to
    the UART. *)
Definition check_reconfig (new_window_size : Z) (st : state) : state * string :=
  if negb (new_window_size =? window_size st) then
    ({| window_size := new_window_size;
        buffer := replicate (Z.to_nat MAX_WINDOW_SIZE) 0;
        index := 0; sum := 0; count := 0 |},
     updated_notice)
  else (st, EmptyString).

(** The state lines 322-326 leave: the one [check_reconfig] returns on a
    change to [w]. *)
Definition reset_state (w : Z) : state :=
  {| window_size := w; buffer := replicate (Z.to_nat MAX_WINDOW_SIZE) 0;
     index := 0; sum := 0; count := 0 |}.

(** Lines 335-351 for a received sample: the new state and the filtered
    value, or the undefined behaviour met first: an access outside the
    buffer, a remainder or a division by zero. *)
Definition update_average (raw_temperature : Z) (st : state) : outcome (state * Z) :=
  let! old := read (buffer st) (index st) in
  let sum1 := wrap_int (sum st - old) in
  let buffer' := <[Z.to_nat (index st) := raw_temperature]> (buffer st) in
  let sum2 := wrap_int (sum1 + raw_temperature) in
  let! w := nonzero (window_size st) in
  let index' := Z.rem (wrap_int (index st + 1)) w in
  let count' := if count st <? window_size st
                then wrap_int (count st + 1) else count st in
  let! c := nonzero count' in
  let filtered_value := wrap_int (Z.quot sum2 c) in
  Done ({| window_size := window_size st; buffer := buffer';
           index := index'; sum := sum2; count := count' |},
        filtered_value).

(** One iteration of the [while (TRUE)] loop in which a sample arrives:
    [new_window_size] is the value of [filter_window_size] read at line
    318 and [raw_temperature] the sample taken from the raw queue.  Both
    queue calls wait with [portMAX_DELAY], so they do not time out. *)
Definition iteration (new_window_size raw_temperature : Z) (st : state)
  : outcome (state * Z * string) :=
  let '(st1, notice) := check_reconfig new_window_size st in
  let! (st2, filtered_value) := update_average raw_temperature st1 in
  Done (st2, filtered_value, notice).

(** Consecutive iterations: each input is the shared value read and the
    sample received in that iteration; the result is the final state
    and the values sent to the filtered queue, in order. *)
Fixpoint run (inputs : list (Z * Z)) (st : state) : outcome (state * list Z) :=
  match inputs with
  | [] => Done (st, [])
  | (w, raw) :: rest =>
    let! (st', v, _) := iteration w raw st in
    let! (st'', vs) := run rest st' in
    Done (st'', v :: vs)
  end.

(** The values emitted for [samples] while the shared window size stays
    at [w], from state [st]. *)
Definition outputs (w : Z) (samples : list Z) (st : state) : outcome (list Z) :=
  let! (_, vs) := run (map (fun s => (w, s)) samples) st in
  Done vs.

(** Sum of a list of samples, exact. *)
Definition total (l : list Z) : Z := fold_right Z.add 0 l.

(** The last [k] elements of a list. *)
Definition last_k {A : Type} (k : nat) (l : list A) : list A :=
  drop (length l - k) l.

(** The mean of the last [min n W] of the first [n] samples ([n] from
    1), rounded down: the specification's formula where the sum is not
    negative. *)
Definition spec_output (W : Z) (samples : list Z) (n : nat) : Z :=
  let k := Nat.min n (Z.to_nat W) in
  total (last_k k (take n samples)) / Z.of_nat k.


(** What the code computes instead: the sum kept in an [int], the
    quotient truncated toward zero. *)
Definition code_output (W : Z) (samples : list Z) (n : nat) : Z :=
  let k := Nat.min n (Z.to_nat W) in
  Z.quot (wrap_int (total (last_k k (take n samples)))) (Z.of_nat k).

(** The state between iterations while the active window size is [W]:
    [h] lists the samples received since the first [W] slots of the
    buffer held [pad] with nothing yet accumulated (at the reset [pad]
    is all zeros; at task start it is what the allocated block held). *)
Record window_inv (W : Z) (pad h : list Z) (st : state) : Prop := mkInv {
  inv_window : window_size st = W;
  inv_range : 1 <= W <= MAX_WINDOW_SIZE;
  inv_pad : length pad = Z.to_nat W;
  inv_buffer : length (buffer st) = Z.to_nat MAX_WINDOW_SIZE;
  inv_index : index st = Z.of_nat (length h) mod W;
  inv_count : count st = Z.min (Z.of_nat (length h)) W;
  inv_sum : sum st = wrap_int (total (drop (length h) (pad ++ h)) - total pad);
  inv_rot :
    drop (Z.to_nat (index st)) (take (Z.to_nat W) (buffer st))
      ++ take (Z.to_nat (index st)) (take (Z.to_nat W) (buffer st))
    = drop (length h) (pad ++ h)
}.

(** The value emitted once the samples [h] have been received. *)
Definition window_output (W : Z) (pad h : list Z) : Z :=
  Z.quot (wrap_int (total (drop (length h) (pad ++ h)) - total pad))
         (Z.min (Z.of_nat (length h)) W).

(** The values emitted for the samples [xs] received after [h]. *)
Fixpoint window_outputs (W : Z) (pad h xs : list Z) : list Z :=
  match xs with
  | [] => []
  | x :: rest => window_output W pad (h ++ [x]) :: window_outputs W pad (h ++ [x]) rest
  end.

(** The part of the state invariant that does not involve the buffer
    contents. *)
Definition bounds (st : state) : Prop :=
  1 <= window_size st <= MAX_WINDOW_SIZE
  /\ 0 <= count st <= window_size st
  /\ 0 <= index st < window_size st
  /\ length (buffer st) = Z.to_nat MAX_WINDOW_SIZE.

(** The state while fewer samples than the window size have arrived
    since the reset: position and count both equal their number. *)
Definition filling (W : Z) (i : nat) (st : state) : Prop :=
  window_size st = W /\ index st = Z.of_nat i /\ count st = Z.of_nat i
  /\ length (buffer st) = Z.to_nat MAX_WINDOW_SIZE.

End Filter.

(** ** Graph renderer: [setPixel] and [vDisplayGraphTask] *)

Module Display.

(** [ucDisplayBuffer]: 96 columns, 2 pages; every element an
    [unsigned char]. *)
Definition initial_buffer : list Z := replicate 192 0.

Definition byte_at (buf : list Z) (i : Z) : Z := default 0 (array_get buf i).

(** [setPixel(x, y, on)] on the global display buffer. *)
Definition setPixel (x y on : Z) (buf : list Z) : list Z :=
  if (x <? 0) || (x >=? DISPLAY_BUFFER_OFFSET) || (y <? 0) || (y >=? Y_AXIS_HEIGHT)
  then buf
  else
    let page := Z.quot y (Z.quot Y_AXIS_HEIGHT 2) in
    let bit := Z.rem y (Z.quot Y_AXIS_HEIGHT 2) in
    let i := x + page * DISPLAY_BUFFER_OFFSET in
    if negb (on =? 0)
    then <[Z.to_nat i := wrap_uchar (Z.lor (byte_at buf i) (Z.shiftl 1 bit))]> buf
    else <[Z.to_nat i := wrap_uchar (Z.land (byte_at buf i) (Z.lnot (Z.shiftl 1 bit)))]> buf.

(** Lines 381-383: the scaled and clamped height. *)
Definition graph_height (value : Z) : Z :=
  let y := wrap_int (Z.quot (wrap_int (wrap_int (value - MIN_TEMPERATURE) * MAX_HEIGHT))
                            TEMPERATURE_RANGE) in
  let y := if y <? 0 then 0 else y in
  if y >? MAX_HEIGHT then MAX_HEIGHT else y.

(** Lines 387-388: the two assignments of the copy loop for column [i]. *)
Definition shift_body (i : Z) (b : list Z) : list Z :=
  let b1 := <[Z.to_nat i := byte_at b (i + 1)]> b in
  <[Z.to_nat (i + DISPLAY_BUFFER_OFFSET) := byte_at b1 (i + 1 + DISPLAY_BUFFER_OFFSET)]> b1.

(** Lines 386-389: both pages move one column to the left. *)
Definition shift_left (buf : list Z) : list Z :=
  for_loop (Z.to_nat (DISPLAY_BUFFER_OFFSET - 1)) shift_body buf.

(** Lines 381-406: the buffer handed to [OSRAMImageDraw] for a received
    value. *)
Definition render (value : Z) (buf : list Z) : list Z :=
  let y := graph_height value in
  let b := shift_left buf in
  let b := <[Z.to_nat (DISPLAY_BUFFER_OFFSET - 1) := 0]> b in
  let b := <[Z.to_nat ((DISPLAY_BUFFER_OFFSET - 1) + DISPLAY_BUFFER_OFFSET) := 0]> b in
  let b := setPixel (DISPLAY_BUFFER_OFFSET - 1) (MAX_HEIGHT - y) 1 b in
  let b := for_loop (Z.to_nat Y_AXIS_HEIGHT) (fun i b => setPixel 0 i 1 b) b in
  for_loop (Z.to_nat DISPLAY_BUFFER_OFFSET) (fun i b => setPixel i X_AXIS_POSITION 1 b) b.

(** The buffer after rendering the values of a list, oldest first. *)
Definition render_all (values : list Z) (buf : list Z) : list Z :=
  fold_left (fun b v => render v b) values buf.

(** Reading of the bitmap: is the pixel of column [x], row [y] on?
    Row 0 is the top; rows 0-7 are the bits of page 0, rows 8-15 those
    of page 1. *)
Definition pixel (buf : list Z) (x y : Z) : bool :=
  Z.testbit (byte_at buf (x + (y / 8) * DISPLAY_BUFFER_OFFSET)) (y mod 8).

(** The height in the words of the specification:
    [clamp((v-15)*15/20, 0, 15)]. *)
Definition spec_height (v : Z) : Z :=
  Z.max 0 (Z.min MAX_HEIGHT ((v - MIN_TEMPERATURE) * MAX_HEIGHT / TEMPERATURE_RANGE)).

(** A well-formed display buffer: 192 [unsigned char]s. *)
Definition well_formed (buf : list Z) : Prop :=
  length buf = 192%nat /\ Forall (fun b => 0 <= b < 256) buf.

End Display.

(** ** Command interface: [stringToInt] and [vUARTReaderTask] *)

Module Uart.

Definition char_code (c : ascii) : Z := Z.of_N (N_of_ascii c).

(** [c >= '0' && c <= '9'] *)
Definition is_digit (c : ascii) : bool := (48 <=? char_code c) && (char_code c <=? 57).

(** The characters a C string holds, as [vUARTSend] and [stringToInt]
    walk it: those before the first terminator. *)
Fixpoint c_string (a : list ascii) : list ascii :=
  match a with
  | [] => []
  | c :: rest => if char_code c =? 0 then [] else c :: c_string rest
  end.

Definition string_of (l : list ascii) : string := fold_right String EmptyString l.

(** The loop of [stringToInt] over the characters of the string, from
    the accumulated [value]. *)
Fixpoint stringToInt_loop (value : Z) (str : list ascii) : Z :=
  match str with
  | [] => value
  | c :: rest =>
    if (char_code c <? 48) || (char_code c >? 57) then -1
    else stringToInt_loop (wrap_int (wrap_int (value * 10) + wrap_int (char_code c - 48))) rest
  end.

Definition stringToInt (a : list ascii) : Z := stringToInt_loop 0 (c_string a).

(** Local variables of the task: the array of [INPUT_BUFFER_SIZE] chars
    and the write position. *)
Record state : Type := mkState {
  inputBuffer : list ascii;
  inputIndex : Z
}.

(** The array is not initialised by the task: its contents at task
    start are [stack]. *)
Definition task_init (stack : list ascii) : state :=
  {| inputBuffer := stack; inputIndex := 0 |}.

Definition too_long_notice : string := (lf ++ "Very long entry. Try again." ++ crlf)%string.
Definition filter_now_prefix : string := (lf ++ " Filter now N = ")%string.
Definition invalid_notice : string := (lf ++ " Invalid N (10-100)." ++ crlf)%string.
Definition empty_notice : string := (lf ++ " Empty buffer." ++ crlf)%string.
Definition non_numeric_notice : string := (lf ++ " Non numeric character." ++ crlf)%string.

(** One iteration of the loop in which a character [c] is available.
    [shared] is [filter_window_size] before the iteration; the result is
    the new local state, the new value of [filter_window_size] and the
    characters put on the UART (the echo of [c] first). *)
Definition step (c : ascii) (st : state) (shared : Z) : state * Z * string :=
  let echo := String c EmptyString in
  if is_digit c then
    if wrap_uint (inputIndex st) <? INPUT_BUFFER_SIZE - 1 then
      ({| inputBuffer := <[Z.to_nat (inputIndex st) := c]> (inputBuffer st);
          inputIndex := wrap_int (inputIndex st + 1) |}, shared, echo)
    else
      ({| inputBuffer := inputBuffer st; inputIndex := 0 |}, shared,
       (echo ++ too_long_notice)%string)
  else if (char_code c =? char_code CR) || (char_code c =? char_code LF) then
    let buf := <[Z.to_nat (inputIndex st) := NUL]> (inputBuffer st) in
    if inputIndex st >? 0 then
      let newN := stringToInt buf in
      if (newN >=? MIN_WINDOW_SIZE) && (newN <=? MAX_WINDOW_SIZE) then
        ({| inputBuffer := buf; inputIndex := 0 |}, newN,
         (echo ++ crlf ++ filter_now_prefix ++ string_of (c_string buf) ++ crlf)%string)
      else
        ({| inputBuffer := buf; inputIndex := 0 |}, shared,
         (echo ++ crlf ++ invalid_notice)%string)
    else
      ({| inputBuffer := buf; inputIndex := 0 |}, shared,
       (echo ++ crlf ++ empty_notice)%string)
  else
    ({| inputBuffer := inputBuffer st; inputIndex := 0 |}, shared,
     (echo ++ non_numeric_notice)%string).

(** The characters of a list processed in order; the outputs are
    concatenated. *)
Fixpoint run (cs : list ascii) (st : state) (shared : Z) : state * Z * string :=
  match cs with
  | [] => (st, shared, EmptyString)
  | c :: rest =>
    let '(st1, shared1, out1) := step c st shared in
    let '(st2, shared2, out2) := run rest st1 shared1 in
    (st2, shared2, (out1 ++ out2)%string)
  end.

(** [volatile int filter_window_size = 5;] *)
Definition initial_window_size : Z := 5.

(** The digits held: the first [inputIndex] characters of the array. *)
Definition held (st : state) : list ascii := take (Z.to_nat (inputIndex st)) (inputBuffer st).

(** The invariant of the reader between iterations. *)
Definition reader_inv (st : state) : Prop :=
  0 <= inputIndex st <= INPUT_BUFFER_SIZE - 1
  /\ length (inputBuffer st) = Z.to_nat INPUT_BUFFER_SIZE
  /\ Forall (fun c => is_digit c = true) (held st).

(** Decimal value of a list of digit characters. *)
Definition decimal (ds : list ascii) : Z :=
  fold_left (fun v c => v * 10 + (char_code c - 48)) ds 0.

End Uart.

(** ** Resource monitor: [utoa] and [formatTaskStats] *)

Module Monitor.

(** The fields of FreeRTOS's [TaskStatus_t] that [formatTaskStats]
    reads; the counters are [uint32_t]. *)
Record TaskStatus_t : Type := mkTaskStatus {
  pcTaskName : string;
  ulRunTimeCounter : Z;
  usStackHighWaterMark : Z;
  eCurrentState : Z
}.

(** Lines 737-743: the local [cpu]. *)
Definition cpu_percent (runTimeCounter totalRunTime : Z) : Z :=
  if totalRunTime >? 0
  then wrap_uint (wrap_uint (runTimeCounter * 100) / totalRunTime)
  else 0.

Definition digit_char (d : Z) : ascii :=
  nth (Z.to_nat d) (list_ascii_of_string "0123456789ABCDEF") "0"%char.

(** The do-while loop of [utoa]: the digits, least significant first.
    A 32-bit value has at most 32 digits in any base from 2 up, which
    bounds the number of iterations. *)
Fixpoint utoa_digits (fuel : nat) (value base : Z) : list ascii :=
  match fuel with
  | O => []
  | S fuel' =>
    let d := digit_char (value mod base) in
    let value' := value / base in
    if value' =? 0 then [d] else d :: utoa_digits fuel' value' base
  end.

Definition utoa (value base : Z) : string :=
  if (base <? 2) || (base >? 16) then EmptyString
  else Uart.string_of (rev (utoa_digits 32 (wrap_uint value) base)).

Definition spaces (n : nat) : string := Uart.string_of (repeat " "%char n).

(** The line [formatTaskStats] leaves in [buffer]. *)
Definition formatTaskStats (task : TaskStatus_t) (totalRunTime : Z) : string :=
  let cpu := cpu_percent (ulRunTimeCounter task) totalRunTime in
  let nameLen := String.length (pcTaskName task) in
  let cpuDigits := if cpu <? 10 then 1%nat else if cpu <? 100 then 2%nat else 3%nat in
  ("Name: " ++ pcTaskName task ++ spaces (9 - nameLen)
    ++ " | CPU: " ++ utoa cpu 10 ++ "%" ++ spaces (5 - (cpuDigits + 1))
    ++ "| Stack Free: " ++ utoa (usStackHighWaterMark task) 10
    ++ " | State: " ++ utoa (eCurrentState task) 10 ++ lf)%string.

(** The percentage in the words of the specification. *)
Definition spec_percent (runTimeCounter totalRunTime : Z) : Z :=
  if totalRunTime >? 0 then runTimeCounter * 100 / totalRunTime else 0.

End Monitor.

(** ** Text formatting: [formatString] and its callers *)

Module Format.

(** [(temp % BASE_DECIMAL) + '0'] stored in a [char]. *)
Definition digit_of (d : Z) : ascii := ascii_of_N (Z.to_N ((d + 48) mod 256)).

(** The do-while loop of lines 647-650.  [pos] is the offset of [tempPtr]
    in [tempBuffer]: every round decrements it before it writes, so a
    round entered at offset 0 writes in front of the array. *)
Fixpoint itoa_loop (pos : nat) (temp : Z) (tempBuffer : list ascii)
  : outcome (list ascii * nat) :=
  match pos with
  | O => Undefined OutOfBounds
  | S pos' =>
    let tempBuffer' := <[pos' := digit_of (Z.rem temp 10)]> tempBuffer in
    let temp' := wrap_int (Z.quot temp 10) in
    if temp' >? 0 then itoa_loop pos' temp' tempBuffer'
    else Done (tempBuffer', pos')
  end.

(** [formatString]: the text left in [buffer], which the caller provides
    large enough.  [stack] is what the 10 chars of the local [tempBuffer]
    hold on entry. *)
Definition formatString (prefix : string) (value : Z) (suffix : string)
  (stack : list ascii) : outcome string :=
  let tempBuffer := <[9%nat := NUL]> stack in
  let! (buf, pos) := itoa_loop 9 value tempBuffer in
  Done (prefix ++ Uart.string_of (Uart.c_string (drop pos buf)) ++ suffix)%string.

(** Line 412: the text [vDisplayGraphTask] draws over the graph. *)
Definition overlay (value : Z) (stack : list ascii) : outcome string :=
  formatString "T: " value "C" stack.

(** Lines 494-506: what one round of [vMonitorStackTask] sends for the
    four high water marks it read ([UBaseType_t], passed as [int]). *)
Definition stack_report (stackTemp stackFilter stackGraph stackUART : Z)
  (stack : list ascii) : outcome string :=
  let! l1 := formatString "TempSensor HWM: " (wrap_int stackTemp) lf stack in
  let! l2 := formatString "FilterTask HWM: " (wrap_int stackFilter) lf stack in
  let! l3 := formatString "GraphTask HWM: " (wrap_int stackGraph) lf stack in
  let! l4 := formatString "UARTReader HWM: " (wrap_int stackUART) lf stack in
  Done (lf ++ "Stack High Water Marks:" ++ lf ++ l1 ++ l2 ++ l3 ++ l4)%string.

(** Reading of a digit of [utoa]'s table "0123456789ABCDEF". *)
Definition digit_value (c : ascii) : Z :=
  if Uart.char_code c <=? 57 then Uart.char_code c - 48 else Uart.char_code c - 55.

(** The number a digit string denotes in [base], most significant digit
    first. *)
Definition positional (base : Z) (ds : list ascii) : Z :=
  fold_left (fun v c => v * base + digit_value c) ds 0.

End Format.

(** ** Task table: the allocation logic of [vTopLikeTask] *)

Module TopTask.

(** What [pxTaskStatusArray] can hold: the indeterminate value of the
    uninitialised local where it is not null, null, or the block of
    [capacity] entries the task allocated. *)
Inductive pointer : Type :=
| Wild
| Null
| Block (capacity : Z).

(** What the task does to the outside, in order. *)
Inductive action : Type :=
| Send (text : string)
| Free (p : pointer)
| Malloc (entries : Z) (p : pointer)
| GetSystemState (p : pointer) (size : Z)
| Delay.

(** [pxTaskStatusArray] and the static [uxMaxTasks]. *)
Record state : Type := mkState {
  pxTaskStatusArray : pointer;
  uxMaxTasks : Z
}.

(** [static UBaseType_t uxMaxTasks = 0;] with the pointer not initialised:
    [initial] is what the local happens to hold. *)
Definition task_init (initial : pointer) : state :=
  {| pxTaskStatusArray := initial; uxMaxTasks := 0 |}.

Definition is_null (p : pointer) : bool :=
  match p with Null => true | _ => false end.

(** What the environment answers in one round: the number of tasks, the
    free heap, whether an allocation succeeds if one is tried, and what
    [uxTaskGetSystemState] stores and returns. *)
Record round : Type := mkRound {
  tasks_now : Z;
  free_heap : Z;
  malloc_ok : bool;
  snapshot : list Monitor.TaskStatus_t;
  total_run_time : Z
}.

(** One round of the [while (TRUE)] loop, lines 532-567. *)
Definition step (r : round) (st : state) : state * list action :=
  let uxArraySize := tasks_now r in
  let heap_line :=
    [Send (lf ++ "Free Heap: "); Send (Monitor.utoa (free_heap r) 10); Send lf] in
  let report p :=
    [GetSystemState p uxArraySize; Send (lf ++ "Task Stats:" ++ lf)%string]
    ++ map (fun t => Send (Monitor.formatTaskStats t (total_run_time r))) (snapshot r)
    ++ [Delay] in
  if uxArraySize >? uxMaxTasks st then
    let old := pxTaskStatusArray st in
    let frees := if is_null old then [] else [Free old] in
    let p := if malloc_ok r then Block uxArraySize else Null in
    if malloc_ok r then
      ({| pxTaskStatusArray := p; uxMaxTasks := uxArraySize |},
       heap_line ++ frees ++ [Malloc uxArraySize p] ++ report p)
    else
      ({| pxTaskStatusArray := p; uxMaxTasks := uxMaxTasks st |},
       heap_line ++ frees ++ [Malloc uxArraySize p]
         ++ [Send (" Could not allocate memory for pxTaskStatusArray" ++ lf)%string; Delay])
  else
    (st, heap_line ++ report (pxTaskStatusArray st)).

(** Consecutive rounds; the actions are concatenated. *)
Fixpoint run (rs : list round) (st : state) : state * list action :=
  match rs with
  | [] => (st, [])
  | r :: rest =>
    let '(st1, a1) := step r st in
    let '(st2, a2) := run rest st1 in
    (st2, a1 ++ a2)
  end.

(** An action through a pointer the task must not use that way: freeing
    anything but a block it holds, or handing [uxTaskGetSystemState] a
    pointer that is not a block of at least [size] entries. *)
Definition misuse (a : action) : bool :=
  match a with
  | Free (Block _) => false
  | Free _ => true
  | GetSystemState (Block capacity) size => negb (size <=? capacity)
  | GetSystemState _ _ => true
  | _ => false
  end.

(** Ownership of the heap along a trace.  [held] is the capacity of the
    block the task owns, if it owns one; the result is the ownership
    after the trace, or [None] if an action is not allowed at its place:
    freeing anything but the block owned at that moment (a second free
    of the same block included), allocating while a block is still
    owned, or handing [uxTaskGetSystemState] anything but the block
    owned, with room for [size] entries. *)
Fixpoint track (held : option Z) (trace : list action) : option (option Z) :=
  match trace with
  | [] => Some held
  | Free (Block c) :: rest =>
    match held with
    | Some h => if h =? c then track None rest else None
    | None => None
    end
  | Free _ :: rest => None
  | Malloc n (Block c) :: rest =>
    match held with
    | None => if n =? c then track (Some c) rest else None
    | Some _ => None
    end
  | Malloc n Null :: rest =>
    match held with
    | None => track None rest
    | Some _ => None
    end
  | Malloc n Wild :: rest => None
  | GetSystemState (Block c) size :: rest =>
    match held with
    | Some h => if (h =? c) && (size <=? c) then track held rest else None
    | None => None
    end
  | GetSystemState _ _ :: rest => None
  | Send _ :: rest => track held rest
  | Delay :: rest => track held rest
  end.

(** The block the state says the task owns. *)
Definition owned (st : state) : option Z :=
  match pxTaskStatusArray st with
  | Block c => Some c
  | _ => None
  end.

(** Rounds in which the number of tasks is at least [floor] and never
    falls from one round to the next. *)
Fixpoint rising (floor : Z) (rs : list round) : Prop :=
  match rs with
  | [] => True
  | r :: rest => floor <= tasks_now r /\ rising (tasks_now r) rest
  end.

(** The pointer is the block of [uxMaxTasks] entries, or it is null and
    every coming round has more than [uxMaxTasks] tasks. *)
Definition settled (floor : Z) (st : state) : Prop :=
  pxTaskStatusArray st = Block (uxMaxTasks st)
  \/ (pxTaskStatusArray st = Null /\ uxMaxTasks st < floor).

End TopTask.

(** * Properties *)

(** ** Machine integers *)

Section CIntFacts.

Lemma wrap_int_small z : in_int z -> wrap_int z = z.
Proof.
  unfold in_int, int_min, int_max, wrap_int. intros H.
  rewrite Z.mod_small; lia.
Qed.

Lemma wrap_int_range z : in_int (wrap_int z).
Proof.
  unfold in_int, int_min, int_max, wrap_int.
  pose proof (Z.mod_pos_bound (z + 2 ^ 31) (2 ^ 32) ltac:(lia)). lia.
Qed.

Lemma wrap_int_eqm a b : (a - b) mod 2 ^ 32 = 0 -> wrap_int a = wrap_int b.
Proof.
  unfold wrap_int. intros H. f_equal.
  apply Z.mod_divide in H; [|lia]. destruct H as [k Hk].
  replace (a + 2 ^ 31) with (b + 2 ^ 31 + k * 2 ^ 32) by lia.
  apply Z_mod_plus_full.
Qed.

Lemma wrap_int_congr z : (wrap_int z - z) mod 2 ^ 32 = 0.
Proof.
  unfold wrap_int.
  rewrite (Z.mod_eq (z + 2 ^ 31) (2 ^ 32)) by lia.
  replace (z + 2 ^ 31 - 2 ^ 32 * ((z + 2 ^ 31) / 2 ^ 32) - 2 ^ 31 - z)
    with ((- ((z + 2 ^ 31) / 2 ^ 32)) * 2 ^ 32) by lia.
  apply Z_mod_mult.
Qed.

(** Nested wrap-arounds collapse: an [int] accumulator holds the
    wrap-around of the exact value. *)
Lemma wrap_int_add_l a b : wrap_int (wrap_int a + b) = wrap_int (a + b).
Proof.
  apply wrap_int_eqm.
  replace (wrap_int a + b - (a + b)) with (wrap_int a - a) by lia.
  apply wrap_int_congr.
Qed.

Lemma wrap_int_sub_l a b : wrap_int (wrap_int a - b) = wrap_int (a - b).
Proof.
  apply wrap_int_eqm.
  replace (wrap_int a - b - (a - b)) with (wrap_int a - a) by lia.
  apply wrap_int_congr.
Qed.

End CIntFacts.

(** ** Sample source *)

Section SensorFacts.

Import Sensor.

Lemma pseudorandom_range seed : 0 <= snd (pseudorandom seed) <= 32767.
Proof.
  unfold pseudorandom, RESULT_MASK, SHIFT_BITS. cbn [snd].
  set (x := Z.shiftr _ 16).
  change 0x7FFF with (Z.ones 15).
  rewrite Z.land_ones by lia.
  change (2 ^ 15) with 32768. change (Z.ones 15) with 32767.
  pose proof (Z.mod_pos_bound x 32768 ltac:(lia)).
  lia.
Qed.

Lemma sensor_step_value seed :
  snd (sensor_step seed) = 15 + snd (pseudorandom seed) mod 21.
Proof.
  pose proof (pseudorandom_range seed) as Hr.
  unfold sensor_step. destruct (pseudorandom seed) as [seed' r]. cbn [snd] in *.
  unfold MIN_TEMPERATURE, TEMPERATURE_RANGE. change (20 + 1) with 21.
  rewrite Z.rem_mod_nonneg by lia.
  pose proof (Z.mod_pos_bound r 21 ltac:(lia)).
  apply wrap_int_small. unfold in_int, int_min, int_max. lia.
Qed.

Lemma sensor_step_seed seed : fst (sensor_step seed) = fst (pseudorandom seed).
Proof. unfold sensor_step. destruct (pseudorandom seed); reflexivity. Qed.

Lemma sensor_samples_prng n : forall seed,
  sensor_samples n seed = map (fun r => 15 + r mod 21) (prng_outputs n seed).
Proof.
  induction n as [|n IH]; intros seed; [reflexivity|].
  cbn [sensor_samples prng_outputs].
  pose proof (sensor_step_value seed) as Hv.
  pose proof (sensor_step_seed seed) as Hs.
  destruct (sensor_step seed) as [s1 t], (pseudorandom seed) as [s2 r].
  cbn [fst snd] in *. subst. cbn [map]. f_equal. apply IH.
Qed.

(** C6. Every sample is [15 + (prng() mod 21)] and lies in [15,35]; the
    generator computes [seed' = seed*1103515245 + 12345] modulo 2^32 from
    the seed 6789 and returns [(seed' >> 16) & 0x7FFF]; the sample
    sequence is a function of that seed alone, and its first three
    generator outputs are 20478, 30212, 11649 (samples 18, 29, 30). *)
Theorem sensor_samples_deterministic :
  initial_seed = 6789
  /\ (forall seed,
        pseudorandom seed =
          ((seed * 1103515245 + 12345) mod 2 ^ 32,
           Z.land (Z.shiftr ((seed * 1103515245 + 12345) mod 2 ^ 32) 16) 0x7FFF))
  /\ (forall seed,
        sensor_step seed =
          (fst (pseudorandom seed), 15 + snd (pseudorandom seed) mod 21))
  /\ (forall n seed,
        sensor_samples n seed = map (fun r => 15 + r mod 21) (prng_outputs n seed)
        /\ Forall (fun t => 15 <= t <= 35) (sensor_samples n seed))
  /\ prng_outputs 3 initial_seed = [20478; 30212; 11649]
  /\ sensor_samples 3 initial_seed = [18; 29; 30].
Proof.
  split; [reflexivity|]. split; [reflexivity|]. split.
  { intros seed. rewrite <- sensor_step_seed, <- sensor_step_value.
    destruct (sensor_step seed); reflexivity. }
  split; [|split; vm_compute; reflexivity].
  intros n seed. split; [apply sensor_samples_prng|].
  rewrite sensor_samples_prng. apply List.Forall_forall. intros t Ht.
  apply in_map_iff in Ht. destruct Ht as [r [<- _]].
  pose proof (Z.mod_pos_bound r 21 ltac:(lia)). lia.
Qed.

End SensorFacts.

(** ** Adaptive filter *)

Section FilterFacts.

Import Filter.

Lemma total_app l1 l2 : total (l1 ++ l2) = total l1 + total l2.
Proof. unfold total. induction l1 as [|a l1 IH]; cbn; lia. Qed.

Lemma total_replicate_0 n : total (replicate n 0) = 0.
Proof. unfold total. induction n as [|n IH]; cbn; lia. Qed.

Lemma quot_in_int a b : in_int a -> 1 <= b -> in_int (Z.quot a b).
Proof.
  unfold in_int, int_min, int_max. intros Ha Hb.
  destruct (Z_le_gt_dec 0 a) as [Hpos|Hneg].
  - rewrite Z.quot_div_nonneg by lia.
    pose proof (Z.div_pos a b ltac:(lia) ltac:(lia)).
    pose proof (Z.div_le_upper_bound a b a ltac:(lia) ltac:(nia)). lia.
  - replace a with (- (- a)) by lia. rewrite Z.quot_opp_l by lia.
    rewrite Z.quot_div_nonneg by lia.
    pose proof (Z.div_pos (- a) b ltac:(lia) ltac:(lia)).
    pose proof (Z.div_le_upper_bound (- a) b (- a) ltac:(lia) ltac:(nia)). lia.
Qed.

(** The circular buffer read from the write position on is the window
    in arrival order; storing a sample at the write position and
    advancing it drops the oldest element and appends the sample. *)
Lemma rotation_step (B D : list Z) (i : nat) (x old : Z) :
  B !! i = Some old ->
  drop i B ++ take i B = D ->
  D = old :: drop 1 D
  /\ drop (S i mod length B) (<[i := x]> B) ++ take (S i mod length B) (<[i := x]> B)
     = drop 1 D ++ [x].
Proof.
  intros Hi HD.
  pose proof (lookup_lt_Some _ _ _ Hi) as Hlt.
  pose proof (take_drop_middle _ _ _ Hi) as Hmid.
  set (B1 := take i B) in *. set (B2 := drop (S i) B) in *.
  assert (HB1 : length B1 = i) by (unfold B1; rewrite length_take; lia).
  assert (HDeq : D = old :: B2 ++ B1).
  { rewrite <- HD, <- Hmid at 1. rewrite <- HB1 at 1.
    rewrite drop_app_length. reflexivity. }
  split; [rewrite HDeq; reflexivity|].
  assert (HB' : <[i := x]> B = B1 ++ x :: B2).
  { rewrite <- Hmid at 1. rewrite insert_app_r_alt by lia.
    rewrite HB1, Nat.sub_diag. reflexivity. }
  rewrite HB', HDeq. cbn [drop].
  assert (Hlen : length B = (i + 1 + length B2)%nat).
  { rewrite <- Hmid, length_app. cbn [length]. lia. }
  destruct (decide (length B2 = 0%nat)) as [Hz|Hnz].
  - destruct B2; [|discriminate]. cbn [length] in Hlen.
    replace (S i mod length B)%nat with 0%nat
      by (replace (S i) with (length B) by lia; rewrite Nat.Div0.mod_same; lia).
    cbn [drop take]. rewrite !app_nil_r. reflexivity.
  - rewrite Nat.mod_small by lia.
    replace (B1 ++ x :: B2) with ((B1 ++ [x]) ++ B2) by (rewrite <- app_assoc; reflexivity).
    replace (S i) with (length (B1 ++ [x])) by (rewrite length_app; cbn; lia).
    rewrite drop_app_length, take_app_length. rewrite app_assoc. reflexivity.
Qed.

Lemma update_average_inv W pad h st x :
  window_inv W pad h st ->
  exists st',
    update_average x st = Done (st', window_output W pad (h ++ [x]))
    /\ window_inv W pad (h ++ [x]) st'.
Proof.
  intros [Hw Hr Hpad Hbuf Hidx Hcnt Hsum Hrot].
  unfold MAX_WINDOW_SIZE in *.
  set (n := length h) in *.
  pose proof (Z.mod_pos_bound (Z.of_nat n) W ltac:(lia)) as Hib.
  rewrite <- Hidx in Hib.
  set (i := Z.to_nat (index st)) in *.
  set (B := take (Z.to_nat W) (buffer st)) in *.
  assert (HlenB : length B = Z.to_nat W) by (unfold B; rewrite length_take; lia).
  destruct (lookup_lt_is_Some_2 B i ltac:(lia)) as [old Hold].
  assert (Hold' : buffer st !! i = Some old).
  { unfold B in Hold. rewrite lookup_take_lt in Hold by lia. exact Hold. }
  destruct (rotation_step B _ i x old Hold Hrot) as [Hhd Hrot'].
  set (D := drop n (pad ++ h)) in *.
  assert (HD' : drop (length (h ++ [x])) (pad ++ h ++ [x]) = drop 1 D ++ [x]).
  { rewrite length_app. cbn [length]. fold n. rewrite app_assoc.
    rewrite drop_app_le by (rewrite length_app; lia).
    unfold D. rewrite drop_drop. reflexivity. }
  assert (Htot : total (drop 1 D ++ [x]) = total D - old + x).
  { rewrite total_app. rewrite Hhd at 2. unfold total. cbn. lia. }
  assert (Hsum2 : wrap_int (wrap_int (sum st - old) + x)
                  = wrap_int (total (drop 1 D ++ [x]) - total pad)).
  { rewrite wrap_int_add_l, Hsum.
    replace (wrap_int (total D - total pad) - old + x)
      with (wrap_int (total D - total pad) + (x - old)) by lia.
    rewrite wrap_int_add_l. f_equal. lia. }
  assert (Hcnt2 : (if count st <? W then wrap_int (count st + 1) else count st)
                  = Z.min (Z.of_nat (length (h ++ [x]))) W).
  { rewrite length_app. cbn [length]. fold n. rewrite Hcnt.
    destruct (Z.ltb_spec (Z.min (Z.of_nat n) W) W).
    - rewrite wrap_int_small by (unfold in_int, int_min, int_max; lia). lia.
    - lia. }
  assert (Hidx2 : Z.rem (wrap_int (index st + 1)) W
                  = Z.of_nat (length (h ++ [x])) mod W).
  { rewrite length_app. cbn [length]. fold n.
    rewrite wrap_int_small by (unfold in_int, int_min, int_max; lia).
    rewrite Z.rem_mod_nonneg by lia.
    rewrite Hidx. replace (Z.of_nat (n + 1)) with (Z.of_nat n + 1) by lia.
    rewrite Zplus_mod_idemp_l. reflexivity. }
  exists {| window_size := W; buffer := <[i := x]> (buffer st);
            index := Z.of_nat (length (h ++ [x])) mod W;
            sum := wrap_int (total (drop 1 D ++ [x]) - total pad);
            count := Z.min (Z.of_nat (length (h ++ [x]))) W |}.
  split.
  - unfold update_average, read, array_get, nonzero.
    destruct (Z.ltb_spec (index st) 0); [lia|]. fold i. rewrite Hold'.
    cbn [bind]. rewrite Hw. destruct (Z.eqb_spec W 0); [lia|].
    cbn [bind]. rewrite Hcnt2, Hidx2, Hsum2.
    destruct (Z.eqb_spec (Z.min (Z.of_nat (length (h ++ [x]))) W) 0) as [Hz|_].
    { rewrite length_app in Hz. cbn [length] in Hz. lia. }
    cbn [bind]. unfold window_output. rewrite HD'.
    rewrite (wrap_int_small (Z.quot _ _)); [reflexivity|].
    apply quot_in_int; [apply wrap_int_range|].
    rewrite length_app. cbn [length]. lia.
  - constructor; cbn [window_size buffer index sum count]; unfold MAX_WINDOW_SIZE;
      try assumption; try lia; try reflexivity.
    + rewrite length_insert. exact Hbuf.
    + rewrite HD'. reflexivity.
    + rewrite HD', <- Hrot'.
      rewrite take_insert_lt by lia. fold B.
      replace (Z.to_nat (Z.of_nat (length (h ++ [x])) mod W)) with (S i mod length B)%nat;
        [reflexivity|].
      rewrite <- Hidx2, HlenB.
      rewrite wrap_int_small by (unfold in_int, int_min, int_max; lia).
      rewrite Z.rem_mod_nonneg by lia.
      replace (S i) with (Z.to_nat (index st + 1)) by lia.
      rewrite <- Z2Nat.inj_mod by lia. reflexivity.
Qed.

Lemma check_reconfig_same st :
  check_reconfig (window_size st) st = (st, EmptyString).
Proof. unfold check_reconfig. rewrite Z.eqb_refl. reflexivity. Qed.

Lemma check_reconfig_changed w st :
  w <> window_size st -> check_reconfig w st = (reset_state w, updated_notice).
Proof.
  intros Hne. unfold check_reconfig.
  destruct (Z.eqb_spec w (window_size st)); [contradiction|reflexivity].
Qed.

Lemma reset_state_inv W :
  1 <= W <= MAX_WINDOW_SIZE ->
  window_inv W (replicate (Z.to_nat W) 0) [] (reset_state W).
Proof.
  intros HW. unfold MAX_WINDOW_SIZE in *.
  constructor; unfold reset_state;
    cbn [window_size buffer index sum count length drop take app Z.to_nat Z.of_nat];
    unfold MAX_WINDOW_SIZE; rewrite ?length_replicate, ?app_nil_r, ?Z.sub_diag;
    try reflexivity; try lia.
  change (Z.to_nat 0) with 0%nat. cbn [drop].
  rewrite take_replicate, Nat.min_l by lia. reflexivity.
Qed.

Lemma task_init_inv W heap :
  1 <= W <= MAX_WINDOW_SIZE ->
  length heap = Z.to_nat MAX_WINDOW_SIZE ->
  window_inv W (take (Z.to_nat W) heap) [] (task_init W heap).
Proof.
  intros HW Hlen. unfold MAX_WINDOW_SIZE in *.
  constructor; unfold task_init;
    cbn [window_size buffer index sum count length drop take app Z.to_nat Z.of_nat];
    unfold MAX_WINDOW_SIZE; rewrite ?length_take, ?app_nil_r, ?Z.sub_diag;
    try reflexivity; try lia; try assumption.
Qed.

Lemma iteration_inv W pad h st x :
  window_inv W pad h st ->
  exists st',
    iteration W x st = Done (st', window_output W pad (h ++ [x]), EmptyString)
    /\ window_inv W pad (h ++ [x]) st'.
Proof.
  intros Hinv. destruct (update_average_inv W pad h st x Hinv) as [st' [Hupd Hinv']].
  exists st'. split; [|exact Hinv'].
  unfold iteration. rewrite <- (inv_window _ _ _ _ Hinv), check_reconfig_same.
  rewrite Hupd. cbn [bind]. rewrite (inv_window _ _ _ _ Hinv). reflexivity.
Qed.

Lemma run_inv W pad xs : forall h st,
  window_inv W pad h st ->
  exists st',
    run (map (fun s => (W, s)) xs) st = Done (st', window_outputs W pad h xs)
    /\ window_inv W pad (h ++ xs) st'.
Proof.
  induction xs as [|x xs IH]; intros h st Hinv.
  - exists st. rewrite app_nil_r. split; [reflexivity|exact Hinv].
  - destruct (iteration_inv W pad h st x Hinv) as [st1 [Hit Hinv1]].
    destruct (IH _ _ Hinv1) as [st2 [Hrun Hinv2]].
    exists st2. cbn [map run window_outputs]. rewrite Hit. cbn [bind].
    rewrite Hrun. cbn [bind].
    rewrite <- app_assoc in Hinv2. split; [reflexivity|exact Hinv2].
Qed.

Lemma window_outputs_length W pad xs : forall h,
  length (window_outputs W pad h xs) = length xs.
Proof. induction xs as [|x xs IH]; intros h; cbn; [|rewrite IH]; reflexivity. Qed.

Lemma window_outputs_lookup W pad xs : forall h k,
  (k < length xs)%nat ->
  window_outputs W pad h xs !! k = Some (window_output W pad (h ++ take (S k) xs)).
Proof.
  induction xs as [|x xs IH]; intros h k Hk; cbn [length] in Hk; [lia|].
  destruct k as [|k]; cbn [window_outputs].
  - reflexivity.
  - change ((?a :: ?l) !! S k) with (l !! k).
    rewrite IH by lia. rewrite <- app_assoc. reflexivity.
Qed.

(** Zeros in front of the samples do not change the total of the window. *)
Lemma total_zero_pad (k : nat) h :
  total (drop (length h) (replicate k 0 ++ h)) = total (last_k (Nat.min (length h) k) h).
Proof.
  unfold last_k.
  rewrite drop_app, total_app, drop_replicate, total_replicate_0, length_replicate.
  rewrite Z.add_0_l. f_equal. f_equal. lia.
Qed.

(** After a reset the padding is zero: the emitted value is the
    truncated mean of the last [min n W] samples. *)
Lemma window_output_zero_pad W h :
  0 <= W ->
  window_output W (replicate (Z.to_nat W) 0) h = code_output W h (length h).
Proof.
  intros HW. unfold window_output, code_output.
  rewrite total_replicate_0, Z.sub_0_r, total_zero_pad, firstn_all.
  f_equal. lia.
Qed.

(** From any state whose window size differs from [W], the first
    iteration resets and the run continues as from the reset state. *)
Lemma run_after_change W st0 x xs :
  1 <= W <= MAX_WINDOW_SIZE ->
  window_size st0 <> W ->
  exists st,
    run (map (fun s => (W, s)) (x :: xs)) st0
    = Done (st, window_outputs W (replicate (Z.to_nat W) 0) [] (x :: xs))
    /\ window_inv W (replicate (Z.to_nat W) 0) (x :: xs) st.
Proof.
  intros HW Hne.
  pose proof (reset_state_inv W HW) as Hinv0.
  destruct (iteration_inv W _ [] _ x Hinv0) as [st1 [Hit Hinv1]].
  destruct (run_inv W _ xs _ _ Hinv1) as [st2 [Hrun Hinv2]].
  exists st2. split; [|exact Hinv2].
  cbn [map run window_outputs].
  assert (Hit0 : iteration W x st0
                 = Done (st1, window_output W (replicate (Z.to_nat W) 0) ([] ++ [x]),
                         updated_notice)).
  { unfold iteration in *. rewrite check_reconfig_changed by congruence.
    replace (check_reconfig W (reset_state W)) with (reset_state W, EmptyString) in Hit
      by (symmetry; apply (check_reconfig_same (reset_state W))).
    destruct (update_average x (reset_state W)) as [[s v]|]; [|discriminate].
    cbn [bind] in *. congruence. }
  rewrite Hit0. cbn [bind]. rewrite Hrun. reflexivity.
Qed.

Lemma outputs_after_change W st0 samples :
  1 <= W <= MAX_WINDOW_SIZE ->
  window_size st0 <> W ->
  outputs W samples st0
  = Done (window_outputs W (replicate (Z.to_nat W) 0) [] samples).
Proof.
  intros HW Hne. unfold outputs.
  destruct samples as [|x xs]; [reflexivity|].
  destruct (run_after_change W st0 x xs HW Hne) as [st [Hrun _]].
  rewrite Hrun. reflexivity.
Qed.

(** The state invariant from a reset on: after the samples received
    since the window size changed to [W], the count is [min n W], the
    write position [n mod W], and the sum is the (wrapped) total of the
    [count] latest samples. *)
Lemma invariant_after_reset W st0 x xs :
  1 <= W <= MAX_WINDOW_SIZE ->
  window_size st0 <> W ->
  exists st outs,
    run (map (fun s => (W, s)) (x :: xs)) st0 = Done (st, outs)
    /\ bounds st
    /\ count st = Z.min (Z.of_nat (length (x :: xs))) W
    /\ index st = Z.of_nat (length (x :: xs)) mod W
    /\ sum st = wrap_int (total (last_k (Z.to_nat (count st)) (x :: xs))).
Proof.
  intros HW Hne.
  destruct (run_after_change W st0 x xs HW Hne) as [st [Hrun Hinv]].
  exists st, (window_outputs W (replicate (Z.to_nat W) 0) [] (x :: xs)).
  split; [exact Hrun|].
  destruct Hinv as [Hw Hr Hpad Hbuf Hidx Hcnt Hsum Hrot].
  pose proof (Z.mod_pos_bound (Z.of_nat (length (x :: xs))) W ltac:(lia)).
  split; [unfold bounds; rewrite Hw; repeat split; try lia; exact Hbuf|].
  split; [exact Hcnt|]. split; [exact Hidx|].
  rewrite Hsum, total_replicate_0, Z.sub_0_r, total_zero_pad, Hcnt.
  f_equal. f_equal. f_equal. lia.
Qed.

Lemma total_bounds M l :
  Forall (fun s => 0 <= s <= M) l -> 0 <= total l <= M * Z.of_nat (length l).
Proof.
  unfold total. induction 1 as [|a l Ha _ IH]; cbn [fold_right length]; lia.
Qed.

Lemma length_last_k {A : Type} (k : nat) (l : list A) : (length (last_k k l) <= k)%nat.
Proof. unfold last_k. rewrite length_drop. lia. Qed.

(** For non-negative samples whose window sum fits an [int], the
    truncated quotient of the code is the floor of the specification. *)
Lemma code_output_spec W samples n :
  1 <= W <= MAX_WINDOW_SIZE -> (1 <= n)%nat ->
  Forall (fun s => 0 <= s <= 21474836) samples ->
  code_output W samples n = spec_output W samples n.
Proof.
  unfold MAX_WINDOW_SIZE. intros HW Hn Hall. unfold code_output, spec_output.
  set (k := Nat.min n (Z.to_nat W)).
  set (l := last_k k (take n samples)).
  assert (Hl : Forall (fun s => 0 <= s <= 21474836) l).
  { unfold l, last_k. apply Forall_drop, Forall_take, Hall. }
  pose proof (total_bounds _ _ Hl) as Hb.
  pose proof (length_last_k k (take n samples)) as Hlen. fold l in Hlen.
  assert (Hk : (1 <= k <= 100)%nat) by (unfold k; lia).
  rewrite wrap_int_small by (unfold in_int, int_min, int_max; nia).
  apply Z.quot_div_nonneg; lia.
Qed.




(** C2.  When the shared value differs from the active window size the
    next iteration resets the whole state (buffer zeroed, sum, count and
    index 0) before it takes its sample, and the value it emits is that
    single sample, whatever the state was before. *)
Theorem reconfiguration_resets_filter st new_window_size raw :
  new_window_size <> window_size st ->
  1 <= new_window_size ->
  in_int raw ->
  check_reconfig new_window_size st = (reset_state new_window_size, updated_notice)
  /\ window_size (reset_state new_window_size) = new_window_size
  /\ buffer (reset_state new_window_size) = replicate 100 0
  /\ sum (reset_state new_window_size) = 0
  /\ count (reset_state new_window_size) = 0
  /\ index (reset_state new_window_size) = 0
  /\ exists st',
       iteration new_window_size raw st = Done (st', raw, updated_notice)
       /\ forall other,
            new_window_size <> window_size other ->
            iteration new_window_size raw other = Done (st', raw, updated_notice).
Proof.
  intros Hne Hpos Hraw.
  split; [apply check_reconfig_changed; exact Hne|].
  do 5 (split; [reflexivity|]).
  assert (Hupd : exists st', update_average raw (reset_state new_window_size)
                             = Done (st', raw)).
  { unfold update_average, reset_state, nonzero.
    cbn [window_size buffer index sum count]. change (read _ 0) with (Done (A := Z) 0).
    cbn [bind]. destruct (Z.eqb_spec new_window_size 0); [lia|]. cbn [bind].
    destruct (Z.ltb_spec 0 new_window_size); [|lia].
    change (wrap_int (0 + 1)) with 1. cbn [Z.eqb bind].
    rewrite Z.sub_0_r. change (wrap_int 0) with 0. rewrite Z.add_0_l.
    rewrite (wrap_int_small raw Hraw), Z.quot_1_r, (wrap_int_small raw Hraw).
    eexists. reflexivity. }
  destruct Hupd as [st' Hupd]. exists st'.
  assert (Hall : forall other, new_window_size <> window_size other ->
            iteration new_window_size raw other = Done (st', raw, updated_notice)).
  { intros other Ho. unfold iteration. rewrite check_reconfig_changed by exact Ho.
    rewrite Hupd. reflexivity. }
  split; [apply Hall; exact Hne|exact Hall].
Qed.

Lemma reconfiguration_resets_filter_witness :
  exists st',
    iteration 10 23 (task_init 5 (replicate 100 7)) = Done (st', 23, updated_notice).
Proof.
  destruct (reconfiguration_resets_filter (task_init 5 (replicate 100 7)) 10 23)
    as [_ [_ [_ [_ [_ [_ [st' [H _]]]]]]]].
  - cbn. lia.
  - lia.
  - unfold in_int, int_min, int_max. lia.
  - exists st'. exact H.
Defined.

(** C3 at the failing start: the block from [pvPortMalloc] is used
    without being cleared, so with window size 5 unchanged since task
    start and a block whose first word is 7, the first sample 20 leaves
    [sum] = 13 with [count] = 1, and 13 is emitted, while the one
    retained sample sums to 20. *)
Theorem uninitialised_buffer_breaks_running_sum :
  exists st,
    iteration 5 20 (task_init 5 (7 :: replicate 99 0)) = Done (st, 13, EmptyString)
    /\ sum st = 13
    /\ count st = 1
    /\ total (last_k (Z.to_nat (count st)) [20]) = 20.
Proof.
  exists {| window_size := 5; buffer := 20 :: replicate 99 0;
            index := 1; sum := 13; count := 1 |}.
  repeat split.
Qed.

(** What holds of the running sum from task start: after the samples
    [h] received with the window size [W] unchanged, the sum is the
    window total less the total of what the first [W] slots of the
    allocated block held; the offset stays while [W] does. *)
Lemma running_sum_from_task_start W heap h :
  1 <= W <= MAX_WINDOW_SIZE ->
  length heap = Z.to_nat MAX_WINDOW_SIZE ->
  exists st outs,
    run (map (fun s => (W, s)) h) (task_init W heap) = Done (st, outs)
    /\ bounds st
    /\ sum st = wrap_int (total (drop (length h) (take (Z.to_nat W) heap ++ h))
                          - total (take (Z.to_nat W) heap)).
Proof.
  intros HW Hlen.
  destruct (run_inv W _ h [] _ (task_init_inv W heap HW Hlen)) as [st [Hrun Hinv]].
  exists st, (window_outputs W (take (Z.to_nat W) heap) [] h).
  split; [exact Hrun|]. destruct Hinv as [Hw Hr Hpad Hbuf Hidx Hcnt Hsum Hrot].
  cbn [app] in *. split; [|exact Hsum].
  pose proof (Z.mod_pos_bound (Z.of_nat (length h)) W ltac:(lia)).
  unfold bounds. rewrite Hw. repeat split; try lia; exact Hbuf.
Qed.

Lemma update_average_count st x :
  1 <= window_size st -> in_int (window_size st) -> 0 <= count st ->
  match update_average x st with
  | Done (st', v) =>
      1 <= count st' /\ v = Z.quot (sum st') (count st')
      /\ window_size st' = window_size st
  | Undefined f => f = OutOfBounds
  end.
Proof.
  intros HW Hint Hc. unfold update_average.
  destruct (read (buffer st) (index st)) as [old|f] eqn:Hread; cbn [bind].
  2:{ unfold read in Hread. destruct (array_get _ _); congruence. }
  unfold nonzero. destruct (Z.eqb_spec (window_size st) 0); [lia|]. cbn [bind].
  set (c := if count st <? window_size st then wrap_int (count st + 1) else count st).
  assert (Hc' : 1 <= c).
  { unfold c. destruct (Z.ltb_spec (count st) (window_size st)); [|lia].
    rewrite wrap_int_small; [lia|]. unfold in_int, int_min, int_max in *. lia. }
  destruct (Z.eqb_spec c 0); [lia|]. cbn [bind window_size sum count].
  split; [exact Hc'|]. split; [|reflexivity].
  apply wrap_int_small, quot_in_int; [apply wrap_int_range|exact Hc'].
Qed.

Lemma iteration_window w st :
  window_size (fst (check_reconfig w st)) = w
  /\ (0 <= count st -> 0 <= count (fst (check_reconfig w st))).
Proof.
  unfold check_reconfig. destruct (Z.eqb_spec w (window_size st)); cbn; split; auto; lia.
Qed.

(** An iteration whose shared value is at least 1 never divides by
    zero: it either emits [sum / count] with [count >= 1], or it has
    left the buffer before. *)
Lemma iteration_count w raw st :
  1 <= w -> in_int w -> 0 <= count st ->
  match iteration w raw st with
  | Done (st', v, _) => 1 <= count st' /\ v = Z.quot (sum st') (count st')
  | Undefined f => f = OutOfBounds
  end.
Proof.
  intros Hw Hint Hc. unfold iteration.
  destruct (iteration_window w st) as [Hws Hcs].
  destruct (check_reconfig w st) as [st1 notice]. cbn [fst] in *.
  pose proof (update_average_count st1 raw) as Hu. rewrite Hws in Hu.
  specialize (Hu Hw Hint (Hcs Hc)).
  destruct (update_average raw st1) as [[st2 v]|f]; cbn [bind]; [|exact Hu].
  destruct Hu as [H1 [H2 _]]. split; assumption.
Qed.

Lemma update_average_count_nonneg st x st' v :
  in_int (window_size st) -> 0 <= count st ->
  update_average x st = Done (st', v) -> 0 <= count st'.
Proof.
  intros Hint Hc. unfold update_average.
  destruct (read (buffer st) (index st)) as [old|f]; cbn [bind]; [|discriminate].
  destruct (nonzero (window_size st)) as [w|f]; cbn [bind]; [|discriminate].
  set (c := if count st <? window_size st then wrap_int (count st + 1) else count st).
  unfold nonzero. destruct (Z.eqb_spec c 0); cbn [bind]; [discriminate|].
  intros Heq. injection Heq as <- _. cbn [count]. unfold c.
  destruct (Z.ltb_spec (count st) (window_size st)); [|lia].
  rewrite wrap_int_small; unfold in_int, int_min, int_max in *; lia.
Qed.

Lemma run_count_nonneg inputs : forall st st' outs,
  0 <= count st ->
  Forall (fun p => in_int (fst p)) inputs ->
  run inputs st = Done (st', outs) ->
  0 <= count st'.
Proof.
  induction inputs as [|[w raw] rest IH]; intros st st' outs Hc Hall Hrun.
  - cbn in Hrun. injection Hrun as <- _. exact Hc.
  - apply Forall_cons in Hall. destruct Hall as [Hw Hrest]. cbn [fst] in Hw.
    cbn [run] in Hrun.
    destruct (iteration w raw st) as [[[st1 v] notice]|f] eqn:Hit; cbn [bind] in Hrun;
      [|discriminate].
    destruct (run rest st1) as [[st2 vs]|f] eqn:Hrest'; cbn [bind] in Hrun; [|discriminate].
    injection Hrun as <- _.
    apply (IH st1 st2 vs); [|exact Hrest|exact Hrest'].
    unfold iteration in Hit.
    destruct (iteration_window w st) as [Hws Hcs].
    destruct (check_reconfig w st) as [s0 nt]. cbn [fst] in *.
    destruct (update_average raw s0) as [[s1 v1]|f] eqn:Hu; cbn [bind] in Hit;
      [|discriminate].
    injection Hit as <- _ _.
    apply (update_average_count_nonneg s0 raw s1 v1); [rewrite Hws; exact Hw|auto|exact Hu].
Qed.

Lemma update_average_bounds st x :
  bounds st ->
  exists st' v, update_average x st = Done (st', v) /\ bounds st'.
Proof.
  unfold bounds, MAX_WINDOW_SIZE. intros [HW [Hc [Hi Hlen]]].
  destruct (lookup_lt_is_Some_2 (buffer st) (Z.to_nat (index st)) ltac:(lia)) as [old Hold].
  unfold update_average, read, array_get, nonzero.
  destruct (Z.ltb_spec (index st) 0); [lia|]. rewrite Hold. cbn [bind].
  destruct (Z.eqb_spec (window_size st) 0); [lia|]. cbn [bind].
  set (c := if count st <? window_size st then wrap_int (count st + 1) else count st).
  assert (Hc' : 1 <= c <= window_size st).
  { unfold c. destruct (Z.ltb_spec (count st) (window_size st)); [|lia].
    rewrite wrap_int_small; unfold in_int, int_min, int_max; lia. }
  destruct (Z.eqb_spec c 0); [lia|]. cbn [bind].
  do 2 eexists. split; [reflexivity|]. cbn [window_size buffer index sum count].
  rewrite wrap_int_small by (unfold in_int, int_min, int_max; lia).
  rewrite Z.rem_mod_nonneg by lia.
  pose proof (Z.mod_pos_bound (index st + 1) (window_size st) ltac:(lia)).
  rewrite length_insert. repeat split; lia.
Qed.

Lemma iteration_bounds w raw st :
  1 <= w <= MAX_WINDOW_SIZE -> bounds st ->
  exists st' v notice, iteration w raw st = Done (st', v, notice) /\ bounds st'.
Proof.
  intros Hw Hb. unfold iteration.
  assert (Hb1 : bounds (fst (check_reconfig w st))).
  { unfold check_reconfig. destruct (Z.eqb_spec w (window_size st)); cbn [negb fst];
      [exact Hb|].
    unfold bounds, MAX_WINDOW_SIZE in *. cbn [window_size buffer index sum count].
    rewrite length_replicate. repeat split; lia. }
  destruct (check_reconfig w st) as [st1 notice]. cbn [fst] in Hb1.
  destruct (update_average_bounds st1 raw Hb1) as [st2 [v [Hu Hb2]]].
  exists st2, v, notice. rewrite Hu. split; [reflexivity|exact Hb2].
Qed.

Lemma run_bounds inputs : forall st,
  bounds st ->
  Forall (fun p => 1 <= fst p <= MAX_WINDOW_SIZE) inputs ->
  exists st' outs,
    run inputs st = Done (st', outs) /\ bounds st' /\ length outs = length inputs.
Proof.
  induction inputs as [|[w raw] rest IH]; intros st Hb Hall.
  - exists st, []. split; [reflexivity|]. split; [exact Hb|reflexivity].
  - apply Forall_cons in Hall. destruct Hall as [Hw Hrest]. cbn [fst] in Hw.
    destruct (iteration_bounds w raw st Hw Hb) as [st1 [v [notice [Hit Hb1]]]].
    destruct (IH st1 Hb1 Hrest) as [st2 [vs [Hrun [Hb2 Hlen]]]].
    exists st2, (v :: vs). cbn [run]. rewrite Hit. cbn [bind]. rewrite Hrun. cbn [bind].
    split; [reflexivity|]. split; [exact Hb2|cbn [length]; lia].
Qed.

Lemma task_init_bounds w0 heap :
  1 <= w0 <= MAX_WINDOW_SIZE -> length heap = Z.to_nat MAX_WINDOW_SIZE ->
  bounds (task_init w0 heap).
Proof.
  unfold bounds, task_init, MAX_WINDOW_SIZE. cbn [window_size buffer index sum count].
  intros Hw Hlen. repeat split; lia.
Qed.

(** C7.  In every iteration of a run from task start whose shared value
    is at least 1, the division [sum / count] is never by zero: the
    iteration either emits with [count >= 1], or (window sizes above the
    buffer length only) has left the buffer before; with all window
    sizes in [1,100] it always emits. *)
Theorem emit_count_positive w0 heap inputs st outs w raw :
  in_int w0 ->
  Forall (fun p => in_int (fst p)) inputs ->
  run inputs (task_init w0 heap) = Done (st, outs) ->
  1 <= w -> in_int w ->
  match iteration w raw st with
  | Done (st', v, _) => 1 <= count st' /\ v = Z.quot (sum st') (count st')
  | Undefined f => f = OutOfBounds
  end
  /\ (1 <= w0 <= MAX_WINDOW_SIZE ->
      length heap = Z.to_nat MAX_WINDOW_SIZE ->
      Forall (fun p => 1 <= fst p <= MAX_WINDOW_SIZE) inputs ->
      w <= MAX_WINDOW_SIZE ->
      exists st' v notice, iteration w raw st = Done (st', v, notice)).
Proof.
  intros Hw0 Hall Hrun Hw Hint. split.
  - apply iteration_count; [exact Hw|exact Hint|].
    apply (run_count_nonneg inputs (task_init w0 heap) st outs);
      [cbn; lia|exact Hall|exact Hrun].
  - intros Hw0' Hlen Hall' Hw'.
    destruct (run_bounds inputs _ (task_init_bounds w0 heap Hw0' Hlen) Hall')
      as [st1 [outs1 [Hrun1 [Hb _]]]].
    rewrite Hrun in Hrun1. injection Hrun1 as -> _.
    destruct (iteration_bounds w raw st1 ltac:(lia) Hb) as [st' [v [notice [Hit _]]]].
    exists st', v, notice. exact Hit.
Qed.

Lemma emit_count_positive_witness :
  match iteration 10 22 {| window_size := 5; buffer := 20 :: replicate 99 0;
                           index := 1; sum := 20; count := 1 |} with
  | Done (st', v, _) => 1 <= count st' /\ v = Z.quot (sum st') (count st')
  | Undefined f => f = OutOfBounds
  end.
Proof.
  refine (proj1 (emit_count_positive 5 (replicate 100 0) [(5, 20)]
                   {| window_size := 5; buffer := 20 :: replicate 99 0;
                      index := 1; sum := 20; count := 1 |} [20] 10 22
                   _ _ _ _ _)).
  - unfold in_int, int_min, int_max. lia.
  - repeat constructor; cbn; unfold in_int, int_min, int_max; lia.
  - reflexivity.
  - lia.
  - unfold in_int, int_min, int_max. lia.
Defined.

End FilterFacts.

(** ** Command interface *)

Section UartFacts.

Import Uart.

Lemma char_code_inj c1 c2 : char_code c1 = char_code c2 -> c1 = c2.
Proof.
  unfold char_code. intros H. apply N2Z.inj in H.
  rewrite <- (ascii_N_embedding c1), <- (ascii_N_embedding c2), H. reflexivity.
Qed.

Lemma is_terminator_spec c :
  (char_code c =? char_code CR) || (char_code c =? char_code LF) = true
  <-> c = CR \/ c = LF.
Proof.
  rewrite orb_true_iff, !Z.eqb_eq. split; intros [H|H]; auto using char_code_inj;
    subst; auto.
Qed.

Lemma digit_code c : is_digit c = true -> 48 <= char_code c <= 57.
Proof. unfold is_digit. rewrite andb_true_iff, !Z.leb_le. tauto. Qed.

(** Writing the terminator after the held digits: the C string in the
    array is exactly the held digits. *)
Lemma c_string_terminated (buf : list ascii) : forall (i : nat),
  (i < length buf)%nat ->
  Forall (fun c => is_digit c = true) (take i buf) ->
  c_string (<[i := NUL]> buf) = take i buf.
Proof.
  induction buf as [|c buf IH]; intros i Hi Hd; cbn [length] in Hi; [lia|].
  destruct i as [|i].
  - reflexivity.
  - cbn [take] in Hd. apply Forall_cons in Hd. destruct Hd as [Hc Hd].
    change (<[S i := NUL]> (c :: buf)) with (c :: <[i := NUL]> buf).
    cbn [c_string take]. apply digit_code in Hc.
    destruct (Z.eqb_spec (char_code c) 0); [lia|].
    f_equal. apply IH; [lia|exact Hd].
Qed.

Lemma stringToInt_loop_decimal ds : forall v,
  Forall (fun c => is_digit c = true) ds ->
  0 <= v ->
  (v + 1) * 10 ^ Z.of_nat (length ds) <= 2 ^ 31 ->
  stringToInt_loop v ds = fold_left (fun v c => v * 10 + (char_code c - 48)) ds v.
Proof.
  induction ds as [|c ds IH]; intros v Hd Hv Hb; [reflexivity|].
  apply Forall_cons in Hd. destruct Hd as [Hc Hd]. apply digit_code in Hc.
  cbn [stringToInt_loop fold_left].
  destruct (Z.ltb_spec (char_code c) 48); [lia|].
  destruct (Z.gtb_spec (char_code c) 57); [lia|]. cbn [orb].
  cbn [length] in Hb. rewrite Nat2Z.inj_succ, Z.pow_succ_r in Hb by lia.
  assert (Hp' : 0 < 10 ^ Z.of_nat (length ds)) by (apply Z.pow_pos_nonneg; lia).
  assert (Hv10 : v * 10 + 10 <= 2 ^ 31) by nia.
  rewrite (wrap_int_small (v * 10)) by (unfold in_int, int_min, int_max; lia).
  rewrite (wrap_int_small (char_code c - 48)) by (unfold in_int, int_min, int_max; lia).
  rewrite wrap_int_small by (unfold in_int, int_min, int_max; lia).
  apply IH; [exact Hd|lia|nia].
Qed.

Lemma stringToInt_held st :
  reader_inv st ->
  c_string (<[Z.to_nat (inputIndex st) := NUL]> (inputBuffer st)) = held st
  /\ stringToInt (<[Z.to_nat (inputIndex st) := NUL]> (inputBuffer st)) = decimal (held st).
Proof.
  unfold reader_inv, INPUT_BUFFER_SIZE. intros [Hi [Hlen Hd]].
  assert (Hc : c_string (<[Z.to_nat (inputIndex st) := NUL]> (inputBuffer st)) = held st).
  { apply c_string_terminated; [lia|exact Hd]. }
  split; [exact Hc|]. unfold stringToInt, decimal. rewrite Hc.
  apply stringToInt_loop_decimal; [exact Hd|lia|].
  assert (Hl : (length (held st) <= 9)%nat) by (unfold held; rewrite length_take; lia).
  change (0 + 1) with 1. rewrite Z.mul_1_l.
  transitivity (10 ^ 9); [|vm_compute; discriminate].
  apply Z.pow_le_mono_r; lia.
Qed.

Lemma task_init_reader_inv stack :
  length stack = Z.to_nat INPUT_BUFFER_SIZE -> reader_inv (task_init stack).
Proof.
  intros Hlen. unfold reader_inv, task_init, held, INPUT_BUFFER_SIZE.
  cbn [inputIndex inputBuffer]. split; [lia|]. split; [exact Hlen|]. constructor.
Qed.

(** The state every branch other than the append leaves: position 0. *)
Lemma cleared_inv buf :
  length buf = Z.to_nat INPUT_BUFFER_SIZE ->
  reader_inv {| inputBuffer := buf; inputIndex := 0 |}.
Proof. apply task_init_reader_inv. Qed.

Lemma step_inv c st shared :
  reader_inv st -> reader_inv (fst (fst (step c st shared))).
Proof.
  intros Hinv. pose proof Hinv as [Hi [Hlen Hd]]. unfold INPUT_BUFFER_SIZE in *.
  unfold step.
  destruct (is_digit c) eqn:Hdig.
  - unfold INPUT_BUFFER_SIZE. rewrite (Z.mod_small (inputIndex st) (2 ^ 32) ltac:(lia)
                                         : wrap_uint (inputIndex st) = inputIndex st).
    destruct (Z.ltb_spec (inputIndex st) (10 - 1)); cbn [fst].
    + unfold reader_inv, held, INPUT_BUFFER_SIZE. cbn [inputIndex inputBuffer].
      rewrite wrap_int_small by (unfold in_int, int_min, int_max; lia).
      rewrite length_insert. split; [lia|]. split; [exact Hlen|].
      replace (Z.to_nat (inputIndex st + 1)) with (S (Z.to_nat (inputIndex st))) by lia.
      rewrite (take_S_r _ _ c) by (apply list_lookup_insert_eq; lia).
      rewrite take_insert_ge by lia.
      apply Forall_app. split; [exact Hd|]. constructor; [exact Hdig|constructor].
    + apply cleared_inv. exact Hlen.
  - destruct ((char_code c =? char_code CR) || (char_code c =? char_code LF)).
    + destruct (inputIndex st >? 0).
      * destruct ((_ >=? _) && (_ <=? _)); cbn [fst]; apply cleared_inv;
          rewrite length_insert; exact Hlen.
      * cbn [fst]. apply cleared_inv. rewrite length_insert. exact Hlen.
    + cbn [fst]. apply cleared_inv. exact Hlen.
Qed.

Lemma step_shared c st shared :
  snd (fst (step c st shared)) = shared
  \/ MIN_WINDOW_SIZE <= snd (fst (step c st shared)) <= MAX_WINDOW_SIZE.
Proof.
  unfold step.
  destruct (is_digit c).
  - destruct (_ <? _); left; reflexivity.
  - destruct ((char_code c =? char_code CR) || (char_code c =? char_code LF));
      [|left; reflexivity].
    destruct (inputIndex st >? 0); [|left; reflexivity].
    set (newN := stringToInt _).
    destruct (Z.geb_spec newN MIN_WINDOW_SIZE); cbn [andb]; [|left; reflexivity].
    destruct (Z.leb_spec newN MAX_WINDOW_SIZE); cbn [fst snd]; [right; lia|left; reflexivity].
Qed.

Lemma run_inv_shared cs : forall st shared,
  (reader_inv st -> reader_inv (fst (fst (run cs st shared))))
  /\ (snd (fst (run cs st shared)) = shared
      \/ MIN_WINDOW_SIZE <= snd (fst (run cs st shared)) <= MAX_WINDOW_SIZE).
Proof.
  induction cs as [|c cs IH]; intros st shared; cbn [run].
  - cbn. split; auto.
  - pose proof (step_inv c st shared) as Hs. pose proof (step_shared c st shared) as Hw.
    destruct (step c st shared) as [[st1 shared1] out1]. cbn [fst snd] in *.
    destruct (IH st1 shared1) as [Hi Hsh].
    destruct (run cs st1 shared1) as [[st2 shared2] out2]. cbn [fst snd] in *.
    split; [auto|]. destruct Hsh as [->|Hsh]; [exact Hw|right; exact Hsh].
Qed.

(** C4.  A carriage return or newline arriving on a non-empty buffer of
    digits parses them to N; when N is in [10,100] the shared window size
    becomes N and the reader sends (after the echo and a line break) the
    message LF " Filter now N = " digits CR LF; otherwise the shared
    window size is unchanged and the range-error message is sent; in
    both cases the buffer is left empty. *)
Theorem line_terminator_applies_window c st shared :
  reader_inv st ->
  0 < inputIndex st ->
  c = CR \/ c = LF ->
  let buf := <[Z.to_nat (inputIndex st) := NUL]> (inputBuffer st) in
  let N := decimal (held st) in
  stringToInt buf = N
  /\ (MIN_WINDOW_SIZE <= N <= MAX_WINDOW_SIZE ->
      step c st shared =
        ({| inputBuffer := buf; inputIndex := 0 |}, N,
         (String c EmptyString ++ crlf
            ++ (lf ++ " Filter now N = ") ++ string_of (held st) ++ crlf)%string))
  /\ (~ MIN_WINDOW_SIZE <= N <= MAX_WINDOW_SIZE ->
      step c st shared =
        ({| inputBuffer := buf; inputIndex := 0 |}, shared,
         (String c EmptyString ++ crlf
            ++ (lf ++ " Invalid N (10-100)." ++ crlf))%string))
  /\ inputIndex (fst (fst (step c st shared))) = 0
  /\ held (fst (fst (step c st shared))) = [].
Proof.
  intros Hinv Hpos Hc buf N.
  destruct (stringToInt_held st Hinv) as [Hstr Hval]. fold buf in Hstr, Hval. fold N in Hval.
  assert (Hdig : is_digit c = false) by (destruct Hc; subst; reflexivity).
  assert (Hterm : (char_code c =? char_code CR) || (char_code c =? char_code LF) = true)
    by (apply is_terminator_spec; exact Hc).
  assert (Hstep : step c st shared =
            if (N >=? MIN_WINDOW_SIZE) && (N <=? MAX_WINDOW_SIZE)
            then ({| inputBuffer := buf; inputIndex := 0 |}, N,
                  (String c EmptyString ++ crlf ++ filter_now_prefix
                     ++ string_of (held st) ++ crlf)%string)
            else ({| inputBuffer := buf; inputIndex := 0 |}, shared,
                  (String c EmptyString ++ crlf ++ invalid_notice)%string)).
  { unfold step. rewrite Hdig, Hterm. fold buf. rewrite Hstr, Hval.
    destruct (Z.gtb_spec (inputIndex st) 0); [reflexivity|lia]. }
  split; [exact Hval|].
  destruct (Z.geb_spec N MIN_WINDOW_SIZE); destruct (Z.leb_spec N MAX_WINDOW_SIZE);
    cbn [andb] in Hstep; rewrite Hstep; cbn [fst inputIndex];
    (split; [intros; (reflexivity || lia)|]);
    (split; [intros; (reflexivity || lia)|]); split; reflexivity.
Qed.

Lemma line_terminator_applies_window_witness :
  step CR {| inputBuffer := list_ascii_of_string "55xxxxxxxx"; inputIndex := 2 |} 5
  = ({| inputBuffer := list_ascii_of_string "55" ++ NUL :: list_ascii_of_string "xxxxxxx";
        inputIndex := 0 |}, 55,
     (String CR EmptyString ++ crlf ++ (lf ++ " Filter now N = ") ++ "55" ++ crlf)%string).
Proof.
  refine (proj1 (proj2 (line_terminator_applies_window CR
            {| inputBuffer := list_ascii_of_string "55xxxxxxxx"; inputIndex := 2 |} 5
            _ _ _)) _).
  - unfold reader_inv, held, INPUT_BUFFER_SIZE. cbn. split; [lia|]. split; [reflexivity|].
    repeat constructor.
  - cbn. lia.
  - left. reflexivity.
  - vm_compute. split; discriminate.
Defined.

(** C8.  After any input the buffer holds at most 9 characters, all
    digits.  From there a digit is appended while fewer than 9 are held;
    a digit arriving on 9 held digits empties the buffer with the
    "Very long entry" notice; a character that is neither digit, CR nor
    LF empties it with the "Non numeric character" notice; CR and LF
    always leave it empty. *)
Theorem command_buffer_bounded cs stack shared0 :
  length stack = Z.to_nat INPUT_BUFFER_SIZE ->
  let st := fst (fst (run cs (task_init stack) shared0)) in
  (0 <= inputIndex st <= 9
   /\ (length (held st) <= 9)%nat
   /\ Forall (fun c => is_digit c = true) (held st))
  /\ (forall c shared, is_digit c = true -> inputIndex st < 9 ->
        held (fst (fst (step c st shared))) = held st ++ [c]
        /\ snd (step c st shared) = String c EmptyString)
  /\ (forall c shared, is_digit c = true -> inputIndex st = 9 ->
        step c st shared =
          ({| inputBuffer := inputBuffer st; inputIndex := 0 |}, shared,
           (String c EmptyString ++ (lf ++ "Very long entry. Try again." ++ crlf))%string))
  /\ (forall c shared, is_digit c = false -> c <> CR -> c <> LF ->
        step c st shared =
          ({| inputBuffer := inputBuffer st; inputIndex := 0 |}, shared,
           (String c EmptyString ++ (lf ++ " Non numeric character." ++ crlf))%string))
  /\ (forall c shared, c = CR \/ c = LF ->
        inputIndex (fst (fst (step c st shared))) = 0
        /\ held (fst (fst (step c st shared))) = []).
Proof.
  intros Hlen st.
  assert (Hinv : reader_inv st).
  { apply (run_inv_shared cs), task_init_reader_inv, Hlen. }
  pose proof Hinv as [Hi [Hl Hd]]. unfold INPUT_BUFFER_SIZE in *.
  assert (Hu : wrap_uint (inputIndex st) = inputIndex st)
    by (apply Z.mod_small; lia).
  split; [|split; [|split; [|split]]].
  - split; [lia|]. split; [|exact Hd]. unfold held. rewrite length_take. lia.
  - intros c shared Hdig Hlt. unfold step. rewrite Hdig, Hu. unfold INPUT_BUFFER_SIZE.
    destruct (Z.ltb_spec (inputIndex st) (10 - 1)); [|lia]. cbn [fst snd].
    split; [|reflexivity]. unfold held. cbn [inputIndex inputBuffer].
    rewrite wrap_int_small by (unfold in_int, int_min, int_max; lia).
    replace (Z.to_nat (inputIndex st + 1)) with (S (Z.to_nat (inputIndex st))) by lia.
    rewrite (take_S_r _ _ c) by (apply list_lookup_insert_eq; lia).
    rewrite take_insert_ge by lia. reflexivity.
  - intros c shared Hdig Heq. unfold step. rewrite Hdig, Hu. unfold INPUT_BUFFER_SIZE.
    destruct (Z.ltb_spec (inputIndex st) (10 - 1)); [lia|]. reflexivity.
  - intros c shared Hdig Hcr Hlf. unfold step. rewrite Hdig.
    destruct ((char_code c =? char_code CR) || (char_code c =? char_code LF)) eqn:Ht;
      [|reflexivity].
    apply is_terminator_spec in Ht. tauto.
  - intros c shared Hc. unfold step.
    assert (Hdig : is_digit c = false) by (destruct Hc; subst; reflexivity).
    rewrite Hdig. apply is_terminator_spec in Hc. rewrite Hc.
    destruct (inputIndex st >? 0); [destruct ((_ >=? _) && (_ <=? _))|];
      split; reflexivity.
Qed.

Lemma command_buffer_bounded_witness :
  let st := fst (fst (run (list_ascii_of_string "123456789")
                        (task_init (list_ascii_of_string "xxxxxxxxxx")) 5)) in
  inputIndex st = 9
  /\ step "0"%char st 5 =
       ({| inputBuffer := inputBuffer st; inputIndex := 0 |}, 5,
        (String "0"%char EmptyString ++ (lf ++ "Very long entry. Try again." ++ crlf))%string).
Proof.
  intros st. split; [reflexivity|].
  refine (proj1 (proj2 (proj2 (command_buffer_bounded (list_ascii_of_string "123456789")
            (list_ascii_of_string "xxxxxxxxxx") 5 _))) "0"%char 5 _ _).
  - reflexivity.
  - reflexivity.
  - reflexivity.
Defined.

(** C10.  The shared window size starts at 5, below the accepted
    minimum 10; after any input to the command reader it is 5 or lies
    in [10,100], and so is at least 1. *)
Theorem shared_window_size_range cs stack :
  initial_window_size = 5
  /\ initial_window_size < MIN_WINDOW_SIZE
  /\ (snd (fst (run cs (task_init stack) initial_window_size)) = 5
      \/ 10 <= snd (fst (run cs (task_init stack) initial_window_size)) <= 100)
  /\ 1 <= snd (fst (run cs (task_init stack) initial_window_size)).
Proof.
  split; [reflexivity|]. split; [reflexivity|].
  destruct (run_inv_shared cs (task_init stack) initial_window_size) as [_ H].
  unfold initial_window_size, MIN_WINDOW_SIZE, MAX_WINDOW_SIZE in *.
  split; lia.
Qed.

End UartFacts.

(** ** Graph renderer *)

Section DisplayFacts.

Import Display.

Lemma for_loop_S {S : Type} (n : nat) (body : Z -> S -> S) (s : S) :
  for_loop (Datatypes.S n) body s = body (Z.of_nat n) (for_loop n body s).
Proof.
  unfold for_loop. rewrite seq_S, fold_left_app. reflexivity.
Qed.

Lemma byte_at_lookup (buf : list Z) (i : Z) (v : Z) :
  0 <= i -> buf !! Z.to_nat i = Some v -> byte_at buf i = v.
Proof.
  intros Hi Hl. unfold byte_at, array_get.
  destruct (Z.ltb_spec i 0); [lia|]. rewrite Hl. reflexivity.
Qed.

Lemma byte_at_insert (buf : list Z) (i j v : Z) :
  0 <= i -> 0 <= j -> (Z.to_nat i < length buf)%nat ->
  byte_at (<[Z.to_nat i := v]> buf) j = if i =? j then v else byte_at buf j.
Proof.
  intros Hi Hj Hlen. unfold byte_at, array_get.
  destruct (Z.ltb_spec j 0); [lia|].
  destruct (Z.eqb_spec i j) as [->|Hne].
  - rewrite list_lookup_insert_eq by lia. reflexivity.
  - rewrite list_lookup_insert_ne by lia. reflexivity.
Qed.

Lemma testbit_one k : 0 <= k -> Z.testbit 1 k = (k =? 0).
Proof. intros Hk. destruct k as [|p|p]; [reflexivity|destruct p; reflexivity|lia]. Qed.

Lemma testbit_set_bit a n m :
  0 <= n < 8 -> 0 <= m < 8 ->
  Z.testbit (wrap_uchar (Z.lor a (Z.shiftl 1 n))) m = (m =? n) || Z.testbit a m.
Proof.
  intros Hn Hm. unfold wrap_uchar.
  rewrite Z.mod_pow2_bits_low by lia.
  rewrite Z.lor_spec, Z.shiftl_spec by lia.
  destruct (Z.eqb_spec m n) as [->|Hne].
  - rewrite Z.sub_diag. cbn. apply orb_true_r.
  - destruct (Z_lt_le_dec (m - n) 0).
    + rewrite (Z.testbit_neg_r 1) by lia. apply orb_false_r.
    + rewrite testbit_one by lia. destruct (Z.eqb_spec (m - n) 0); [lia|apply orb_false_r].
Qed.

Lemma length_setPixel x y on buf : length (setPixel x y on buf) = length buf.
Proof.
  unfold setPixel. destruct (_ || _); [reflexivity|].
  destruct (negb _); apply length_insert.
Qed.

(** Turning a pixel on sets that pixel and no other. *)
Lemma pixel_setPixel buf x y x' y' :
  length buf = 192%nat ->
  0 <= x < 96 -> 0 <= y < 16 -> 0 <= x' < 96 -> 0 <= y' < 16 ->
  pixel (setPixel x y 1 buf) x' y' = ((x =? x') && (y =? y')) || pixel buf x' y'.
Proof.
  intros Hlen Hx Hy Hx' Hy'. unfold setPixel, pixel, DISPLAY_BUFFER_OFFSET, Y_AXIS_HEIGHT.
  destruct (Z.ltb_spec x 0); [lia|]. destruct (Z.geb_spec x 96); [lia|].
  destruct (Z.ltb_spec y 0); [lia|]. destruct (Z.geb_spec y 16); [lia|].
  cbn [orb negb Z.eqb]. change (Z.quot 16 2) with 8.
  rewrite Z.quot_div_nonneg, Z.rem_mod_nonneg by lia.
  pose proof (Z.div_mod y 8 ltac:(lia)). pose proof (Z.mod_pos_bound y 8 ltac:(lia)).
  pose proof (Z.div_mod y' 8 ltac:(lia)). pose proof (Z.mod_pos_bound y' 8 ltac:(lia)).
  rewrite byte_at_insert by lia.
  destruct (Z.eqb_spec (x + y / 8 * 96) (x' + y' / 8 * 96)) as [Heq|Hne].
  - rewrite testbit_set_bit by lia. rewrite <- Heq.
    assert (x = x' /\ y / 8 = y' / 8) as [-> Hd] by lia.
    rewrite Z.eqb_refl. cbn [andb]. f_equal.
    destruct (Z.eqb_spec y y'), (Z.eqb_spec (y' mod 8) (y mod 8)); try reflexivity; lia.
  - destruct (Z.eqb_spec x x'), (Z.eqb_spec y y'); cbn [andb orb]; try reflexivity.
    subst. lia.
Qed.

Lemma y_axis_loop (n : nat) buf x y :
  length buf = 192%nat -> (n <= 16)%nat -> 0 <= x < 96 -> 0 <= y < 16 ->
  length (for_loop n (fun i b => setPixel 0 i 1 b) buf) = 192%nat
  /\ pixel (for_loop n (fun i b => setPixel 0 i 1 b) buf) x y
     = ((x =? 0) && (y <? Z.of_nat n)) || pixel buf x y.
Proof.
  intros Hlen Hn Hx Hy. induction n as [|n IH].
  - split; [exact Hlen|]. cbn [for_loop seq fold_left].
    destruct (Z.ltb_spec y (Z.of_nat 0)); [lia|]. rewrite andb_false_r. reflexivity.
  - destruct (IH ltac:(lia)) as [Hl Hp]. rewrite for_loop_S.
    split; [rewrite length_setPixel; exact Hl|].
    rewrite pixel_setPixel by (exact Hl || lia). rewrite Hp.
    destruct (Z.eqb_spec 0 x), (Z.eqb_spec x 0), (Z.eqb_spec (Z.of_nat n) y),
      (Z.ltb_spec y (Z.of_nat n)), (Z.ltb_spec y (Z.of_nat (S n)));
      cbn [andb orb]; try reflexivity; lia.
Qed.

Lemma x_axis_loop (n : nat) buf x y :
  length buf = 192%nat -> (n <= 96)%nat -> 0 <= x < 96 -> 0 <= y < 16 ->
  length (for_loop n (fun i b => setPixel i X_AXIS_POSITION 1 b) buf) = 192%nat
  /\ pixel (for_loop n (fun i b => setPixel i X_AXIS_POSITION 1 b) buf) x y
     = ((y =? 15) && (x <? Z.of_nat n)) || pixel buf x y.
Proof.
  intros Hlen Hn Hx Hy. unfold X_AXIS_POSITION. induction n as [|n IH].
  - split; [exact Hlen|]. cbn [for_loop seq fold_left].
    destruct (Z.ltb_spec x (Z.of_nat 0)); [lia|]. rewrite andb_false_r. reflexivity.
  - destruct (IH ltac:(lia)) as [Hl Hp]. rewrite for_loop_S.
    split; [rewrite length_setPixel; exact Hl|].
    rewrite pixel_setPixel by (exact Hl || lia). rewrite Hp.
    destruct (Z.eqb_spec 15 y), (Z.eqb_spec y 15), (Z.eqb_spec (Z.of_nat n) x),
      (Z.ltb_spec x (Z.of_nat n)), (Z.ltb_spec x (Z.of_nat (S n)));
      cbn [andb orb]; try reflexivity; lia.
Qed.

(** The copy loop after [k] rounds: the first [k] columns of each page
    hold their right neighbours, the others are untouched. *)
Lemma shift_loop_inv (k : nat) buf :
  length buf = 192%nat -> (k <= 95)%nat ->
  length (for_loop k shift_body buf) = 192%nat
  /\ forall i, 0 <= i < 96 ->
       byte_at (for_loop k shift_body buf) i
         = (if i <? Z.of_nat k then byte_at buf (i + 1) else byte_at buf i)
       /\ byte_at (for_loop k shift_body buf) (i + 96)
         = (if i <? Z.of_nat k then byte_at buf (i + 97) else byte_at buf (i + 96)).
Proof.
  intros Hlen Hk. induction k as [|k IH].
  - split; [exact Hlen|]. intros i Hi. cbn [for_loop seq fold_left].
    destruct (Z.ltb_spec i (Z.of_nat 0)); [lia|]. split; reflexivity.
  - destruct (IH ltac:(lia)) as [Hl Hb]. rewrite for_loop_S.
    set (b := for_loop k shift_body buf) in *.
    unfold shift_body, DISPLAY_BUFFER_OFFSET.
    split; [rewrite !length_insert; exact Hl|].
    intros i Hi.
    rewrite !byte_at_insert by (rewrite ?length_insert; lia).
    destruct (Hb i Hi) as [Hi1 Hi2].
    destruct (Hb (Z.of_nat k + 1) ltac:(lia)) as [Hk1 Hk2].
    destruct (Z.ltb_spec (Z.of_nat k + 1) (Z.of_nat k)); [lia|].
    replace (Z.of_nat k + 1 + 96) with (Z.of_nat k + 97) in * by lia.
    destruct (Z.eqb_spec (Z.of_nat k + 96) i); [lia|].
    destruct (Z.eqb_spec (Z.of_nat k) (Z.of_nat k + 97)); [lia|].
    destruct (Z.eqb_spec (Z.of_nat k) (i + 96)); [lia|].
    destruct (Z.ltb_spec i (Z.of_nat k)), (Z.ltb_spec i (Z.of_nat (S k)));
      destruct (Z.eqb_spec (Z.of_nat k) i), (Z.eqb_spec (Z.of_nat k + 96) (i + 96));
      try lia; subst; split; try assumption; try reflexivity;
      rewrite ?Hk1, ?Hk2; try reflexivity.
Qed.

Lemma pixel_shift_left buf x y :
  length buf = 192%nat -> 0 <= x < 95 -> 0 <= y < 16 ->
  pixel (shift_left buf) x y = pixel buf (x + 1) y.
Proof.
  intros Hlen Hx Hy. unfold shift_left, DISPLAY_BUFFER_OFFSET.
  change (Z.to_nat (96 - 1)) with 95%nat.
  destruct (shift_loop_inv 95 buf Hlen ltac:(lia)) as [_ Hb].
  destruct (Hb x ltac:(lia)) as [H0 H1].
  destruct (Z.ltb_spec x (Z.of_nat 95)); [|lia].
  unfold pixel, DISPLAY_BUFFER_OFFSET.
  assert (Hd : y / 8 = 0 \/ y / 8 = 1)
    by (pose proof (Z.div_mod y 8 ltac:(lia)); pose proof (Z.mod_pos_bound y 8 ltac:(lia)); lia).
  destruct Hd as [-> | ->]; rewrite ?Z.mul_0_l, ?Z.mul_1_l, ?Z.add_0_r.
  - rewrite H0. reflexivity.
  - rewrite H1. f_equal. f_equal. lia.
Qed.

Lemma length_shift_left buf : length buf = 192%nat -> length (shift_left buf) = 192%nat.
Proof.
  intros Hlen. unfold shift_left, DISPLAY_BUFFER_OFFSET.
  change (Z.to_nat (96 - 1)) with 95%nat.
  apply (shift_loop_inv 95 buf Hlen). lia.
Qed.

(** Clearing both bytes of the last column turns its 16 pixels off. *)
Lemma pixel_clear_last buf x y :
  length buf = 192%nat -> 0 <= x < 96 -> 0 <= y < 16 ->
  pixel (<[Z.to_nat (95 + 96) := 0]> (<[Z.to_nat 95 := 0]> buf)) x y
  = if x =? 95 then false else pixel buf x y.
Proof.
  intros Hlen Hx Hy. unfold pixel, DISPLAY_BUFFER_OFFSET.
  assert (Hd : y / 8 = 0 \/ y / 8 = 1)
    by (pose proof (Z.div_mod y 8 ltac:(lia)); pose proof (Z.mod_pos_bound y 8 ltac:(lia)); lia).
  rewrite !byte_at_insert by (rewrite ?length_insert; lia).
  destruct (Z.eqb_spec x 95) as [->|Hne].
  - destruct Hd as [-> | ->]; cbn [Z.mul Z.add Z.eqb Pos.eqb Pos.add Pos.mul];
      apply Z.testbit_0_l.
  - destruct (Z.eqb_spec (95 + 96) (x + y / 8 * 96)); [lia|].
    destruct (Z.eqb_spec 95 (x + y / 8 * 96)); [lia|]. reflexivity.
Qed.

Lemma graph_height_range v : 0 <= graph_height v <= 15.
Proof.
  unfold graph_height, MAX_HEIGHT.
  set (y := wrap_int _).
  destruct (Z.ltb_spec y 0); [cbn; lia|].
  destruct (Z.gtb_spec y 15); lia.
Qed.

(** The height computed by the code is the clamped linear map of the
    specification whenever [(v - 15) * 15] fits an [int]. *)
Lemma graph_height_spec v :
  in_int ((v - 15) * 15) -> graph_height v = spec_height v.
Proof.
  unfold in_int, int_min, int_max. intros Hv.
  unfold graph_height, spec_height, MIN_TEMPERATURE, MAX_HEIGHT, TEMPERATURE_RANGE.
  rewrite (wrap_int_small (v - 15)) by (unfold in_int, int_min, int_max; lia).
  rewrite (wrap_int_small ((v - 15) * 15)) by (unfold in_int, int_min, int_max; lia).
  set (a := (v - 15) * 15) in *.
  assert (Hq : in_int (Z.quot a 20))
    by (apply quot_in_int; unfold in_int, int_min, int_max; lia).
  rewrite (wrap_int_small _ Hq).
  destruct (Z_lt_le_dec a 0) as [Hneg|Hpos].
  - assert (Hq0 : Z.quot a 20 <= 0).
    { replace a with (- (- a)) by lia. rewrite Z.quot_opp_l by lia.
      pose proof (Z.quot_pos (- a) 20 ltac:(lia) ltac:(lia)). lia. }
    assert (Hd : a / 20 < 0) by (apply Z.div_lt_upper_bound; lia).
    destruct (Z.ltb_spec (Z.quot a 20) 0).
    + cbn. lia.
    + replace (Z.quot a 20) with 0 by lia. cbn. lia.
  - rewrite Z.quot_div_nonneg by lia.
    pose proof (Z.div_pos a 20 Hpos ltac:(lia)).
    destruct (Z.ltb_spec (a / 20) 0); [lia|].
    destruct (Z.gtb_spec (a / 20) 15); lia.
Qed.

(** One frame: the axes are on, the last column shows the new value at
    row [15 - height], every other column shows what its right
    neighbour showed. *)
Lemma pixel_render v buf x y :
  length buf = 192%nat -> 0 <= x < 96 -> 0 <= y < 16 ->
  length (render v buf) = 192%nat
  /\ pixel (render v buf) x y
     = (x =? 0) || (y =? 15)
       || (if x =? 95 then y =? 15 - graph_height v else pixel buf (x + 1) y).
Proof.
  intros Hlen Hx Hy. unfold render, DISPLAY_BUFFER_OFFSET, Y_AXIS_HEIGHT, MAX_HEIGHT.
  change (96 - 1) with 95. change (Z.to_nat 16) with 16%nat. change (Z.to_nat 96) with 96%nat.
  pose proof (graph_height_range v) as Hh.
  set (b1 := shift_left buf).
  assert (Hl1 : length b1 = 192%nat) by (apply length_shift_left; exact Hlen).
  set (b2 := <[Z.to_nat (95 + 96) := 0]> (<[Z.to_nat 95 := 0]> b1)).
  assert (Hl2 : length b2 = 192%nat) by (unfold b2; rewrite !length_insert; exact Hl1).
  set (b3 := setPixel 95 (15 - graph_height v) 1 b2).
  assert (Hl3 : length b3 = 192%nat) by (unfold b3; rewrite length_setPixel; exact Hl2).
  destruct (y_axis_loop 16 b3 x y Hl3 ltac:(lia) Hx Hy) as [Hl4 Hp4].
  set (b4 := for_loop 16 (fun i b => setPixel 0 i 1 b) b3) in *.
  destruct (x_axis_loop 96 b4 x y Hl4 ltac:(lia) Hx Hy) as [Hl5 Hp5].
  split; [exact Hl5|]. rewrite Hp5, Hp4. unfold b3.
  rewrite pixel_setPixel by (exact Hl2 || lia).
  unfold b2. rewrite pixel_clear_last by (exact Hl1 || lia).
  destruct (Z.eqb_spec x 95) as [->|Hne].
  - rewrite Z.eqb_refl. cbn [andb orb].
    destruct (Z.ltb_spec 95 (Z.of_nat 96)); [|lia].
    destruct (Z.eqb_spec y 15), (Z.eqb_spec (15 - graph_height v) y),
      (Z.eqb_spec y (15 - graph_height v)), (Z.ltb_spec y (Z.of_nat 16));
      cbn [andb orb]; try reflexivity; lia.
  - destruct (Z.eqb_spec 95 x); [lia|]. cbn [andb orb].
    unfold b1. rewrite pixel_shift_left by (exact Hlen || lia).
    destruct (Z.eqb_spec x 0), (Z.eqb_spec y 15), (Z.ltb_spec x (Z.of_nat 96)),
      (Z.ltb_spec y (Z.of_nat 16)); cbn [andb orb]; try reflexivity; try lia.
    all: destruct (pixel buf (x + 1) y); reflexivity.
Qed.

Lemma render_all_snoc vs v buf :
  render_all (vs ++ [v]) buf = render v (render_all vs buf).
Proof. unfold render_all. rewrite fold_left_app. reflexivity. Qed.

Lemma length_render_all vs buf :
  length buf = 192%nat -> length (render_all vs buf) = 192%nat.
Proof.
  intros Hlen. induction vs as [|v vs IH] using rev_ind; [exact Hlen|].
  rewrite render_all_snoc.
  apply (pixel_render v (render_all vs buf) 0 0 IH); lia.
Qed.

(** The graph area after a sequence of frames: column [95 - k] shows the
    value rendered [k] frames ago; columns no frame has reached yet show
    the initial contents, moved left. *)
Lemma pixel_render_all vs buf : forall x y,
  length buf = 192%nat -> 1 <= x < 96 -> 0 <= y < 15 ->
  pixel (render_all vs buf) x y
  = match rev vs !! Z.to_nat (95 - x) with
    | Some u => y =? 15 - graph_height u
    | None => pixel buf (x + Z.of_nat (length vs)) y
    end.
Proof.
  induction vs as [|v vs IH] using rev_ind; intros x y Hlen Hx Hy.
  - cbn [rev length render_all fold_left]. rewrite lookup_nil, Z.add_0_r. reflexivity.
  - rewrite render_all_snoc.
    destruct (pixel_render v (render_all vs buf) x y (length_render_all vs buf Hlen)
                ltac:(lia) ltac:(lia)) as [_ Hp].
    rewrite Hp. rewrite rev_app_distr. cbn [rev app].
    destruct (Z.eqb_spec x 0); [lia|]. destruct (Z.eqb_spec y 15); [lia|]. cbn [orb].
    destruct (Z.eqb_spec x 95) as [->|Hne].
    + reflexivity.
    + rewrite IH by (exact Hlen || lia).
      replace (Z.to_nat (95 - x)) with (S (Z.to_nat (95 - (x + 1)))) by lia.
      change ((v :: rev vs) !! S ?k) with (rev vs !! k).
      rewrite length_app. cbn [length].
      replace (x + 1 + Z.of_nat (length vs)) with (x + Z.of_nat (length vs + 1)) by lia.
      reflexivity.
Qed.

(** C5 (as amended).  The height is the clamped linear map whenever
    [(v-15)*15] fits an [int]; each frame turns the axes on (column 0
    and row 15), shows the new value in column 95 at row [15 - height]
    and moves the rest one column left; so after the frames for
    [vs ++ [v]] column 95 encodes the last value, column [95 - k] the
    value rendered [k] frames before it (k up to 94), and with 95 or
    more frames the picture does not depend on anything older: a value
    leaves the bitmap 96 frames after its own, not 16. *)
Theorem scrolling_graph vs v buf x y :
  length buf = 192%nat -> 0 <= x < 96 -> 0 <= y < 16 ->
  let frame := render_all (vs ++ [v]) buf in
  (0 <= graph_height v <= 15
   /\ (in_int ((v - 15) * 15) -> graph_height v = spec_height v))
  /\ (frame = render v (render_all vs buf)
      /\ pixel frame x y
         = (x =? 0) || (y =? 15)
           || (if x =? 95 then y =? 15 - graph_height v
               else pixel (render_all vs buf) (x + 1) y))
  /\ (pixel frame 0 y = true /\ pixel frame x 15 = true)
  /\ pixel frame 95 y = (y =? 15 - graph_height v) || (y =? 15)
  /\ (1 <= x -> y < 15 ->
      pixel frame x y
      = match rev (vs ++ [v]) !! Z.to_nat (95 - x) with
        | Some u => y =? 15 - graph_height u
        | None => pixel buf (x + Z.of_nat (length (vs ++ [v]))) y
        end)
  /\ (forall older buf',
        length buf' = 192%nat -> (95 <= length (vs ++ [v]))%nat ->
        pixel (render_all (older ++ vs ++ [v]) buf') x y = pixel frame x y).
Proof.
  intros Hlen Hx Hy frame.
  assert (Hframe : forall b, length b = 192%nat -> forall hist x' y',
            0 <= x' < 96 -> 0 <= y' < 16 ->
            pixel (render_all (hist ++ [v]) b) x' y'
            = (x' =? 0) || (y' =? 15)
              || (if x' =? 95 then y' =? 15 - graph_height v
                  else pixel (render_all hist b) (x' + 1) y')).
  { intros b Hb hist x' y' Hx' Hy'. rewrite render_all_snoc.
    apply (pixel_render v (render_all hist b) x' y' (length_render_all hist b Hb));
      assumption. }
  split; [split; [apply graph_height_range|apply graph_height_spec]|].
  split; [split; [apply render_all_snoc|apply Hframe; assumption]|].
  split.
  { unfold frame. split; rewrite Hframe by (assumption || lia).
    - reflexivity.
    - rewrite Z.eqb_refl. apply orb_true_iff. left. apply orb_true_r. }
  split.
  { unfold frame. rewrite Hframe by (assumption || lia). cbn [Z.eqb Pos.eqb orb].
    apply orb_comm. }
  split.
  { intros Hx1 Hy1. apply pixel_render_all; [exact Hlen|lia|lia]. }
  intros older buf' Hlen' Hn.
  destruct (Z.eqb_spec x 0) as [->|Hx0].
  { unfold frame. rewrite app_assoc, !Hframe by (assumption || lia). reflexivity. }
  destruct (Z.eqb_spec y 15) as [->|Hy15].
  { unfold frame. rewrite app_assoc, !Hframe by (assumption || lia).
    rewrite !orb_true_r. reflexivity. }
  unfold frame. rewrite !pixel_render_all by (assumption || lia).
  rewrite rev_app_distr.
  assert (Hk : (Z.to_nat (95 - x) < length (rev (vs ++ [v])))%nat)
    by (rewrite length_rev; lia).
  rewrite lookup_app_l by exact Hk.
  destruct (lookup_lt_is_Some_2 _ _ Hk) as [u ->]. reflexivity.
Qed.

Lemma scrolling_graph_witness :
  pixel (render_all ([20; 35] ++ [25]) initial_buffer) 95 8
  = (8 =? 15 - graph_height 25) || (8 =? 15).
Proof.
  refine (proj1 (proj2 (proj2 (proj2
            (scrolling_graph [20; 35] 25 initial_buffer 95 8 _ _ _))))).
  - reflexivity.
  - lia.
  - lia.
Defined.

(** C5 as stated fails: after 17 frames the first value (the one 16
    frames back) is still drawn, in column 79: there the picture differs
    with that value; and a value for which [(v-15)*15] overflows is not
    mapped to the clamped height. *)
Lemma sample_sixteen_frames_back_visible :
  pixel (render_all (35 :: replicate 16 15) initial_buffer) 79 0 = true
  /\ pixel (render_all (15 :: replicate 16 15) initial_buffer) 79 0 = false
  /\ graph_height 200000000 = 0
  /\ spec_height 200000000 = 15.
Proof. vm_compute. repeat split. Qed.

End DisplayFacts.

(** ** Resource monitor *)

Section MonitorFacts.

Import Monitor.

(** While [runTimeCounter * 100] fits 32 bits the reported value is the
    exact percentage. *)
Lemma cpu_percent_exact runTimeCounter totalRunTime :
  0 <= runTimeCounter -> runTimeCounter * 100 < 2 ^ 32 ->
  0 <= totalRunTime < 2 ^ 32 ->
  cpu_percent runTimeCounter totalRunTime = spec_percent runTimeCounter totalRunTime.
Proof.
  intros Hr Hp Ht. unfold cpu_percent, spec_percent, wrap_uint.
  destruct (Z.gtb_spec totalRunTime 0); [|reflexivity].
  rewrite (Z.mod_small (runTimeCounter * 100)) by lia.
  apply Z.mod_small. split.
  - apply Z.div_pos; lia.
  - apply Z.div_lt_upper_bound; nia.
Qed.

Lemma cpu_percent_zero_total runTimeCounter : cpu_percent runTimeCounter 0 = 0.
Proof. reflexivity. Qed.

(** C9 at the failing input.  The product [ulRunTimeCounter * 100UL] is
    taken in 32 bits: for a task that has run all of 42949673 ticks it
    wraps to 4, so the line reports 0% where the percentage is 100. *)
Theorem cpu_percent_wraps :
  cpu_percent 42949673 42949673 = 0
  /\ spec_percent 42949673 42949673 = 100
  /\ formatTaskStats
       {| pcTaskName := "BusyTask"; ulRunTimeCounter := 42949673;
          usStackHighWaterMark := 50; eCurrentState := 1 |} 42949673
     = ("Name: BusyTask  | CPU: 0%   | Stack Free: 50 | State: 1" ++ lf)%string.
Proof. vm_compute. repeat split. Qed.

End MonitorFacts.


(** ** Number formatting and parsing *)

Section FormatFacts.

Import Uart Monitor Format.

Lemma list_of_string_of l : list_ascii_of_string (string_of l) = l.
Proof.
  induction l as [|c l IH]; [reflexivity|].
  change (string_of (c :: l)) with (String c (string_of l)).
  cbn [list_ascii_of_string]. rewrite IH. reflexivity.
Qed.

Lemma string_of_app l1 l2 : string_of (l1 ++ l2) = (string_of l1 ++ string_of l2)%string.
Proof.
  induction l1 as [|c l1 IH]; [reflexivity|].
  change (string_of ((c :: l1) ++ l2)) with (String c (string_of (l1 ++ l2))).
  rewrite IH. reflexivity.
Qed.

Lemma length_string_of l : String.length (string_of l) = length l.
Proof.
  induction l as [|c l IH]; [reflexivity|].
  change (string_of (c :: l)) with (String c (string_of l)).
  cbn [String.length length]. rewrite IH. reflexivity.
Qed.

Lemma digit_value_char d : 0 <= d < 16 -> digit_value (digit_char d) = d.
Proof.
  intros Hd.
  assert (H : d = 0 \/ d = 1 \/ d = 2 \/ d = 3 \/ d = 4 \/ d = 5 \/ d = 6 \/ d = 7
              \/ d = 8 \/ d = 9 \/ d = 10 \/ d = 11 \/ d = 12 \/ d = 13 \/ d = 14 \/ d = 15)
    by lia.
  repeat (destruct H as [->|H]; [reflexivity|]). subst. reflexivity.
Qed.

Lemma digit_char_decimal d : 0 <= d < 10 -> char_code (digit_char d) = 48 + d.
Proof.
  intros Hd.
  assert (H : d = 0 \/ d = 1 \/ d = 2 \/ d = 3 \/ d = 4 \/ d = 5 \/ d = 6 \/ d = 7
              \/ d = 8 \/ d = 9) by lia.
  repeat (destruct H as [->|H]; [reflexivity|]). subst. reflexivity.
Qed.

(** Value of the digits as [utoa]'s loop produces them, least significant
    first. *)
Lemma utoa_digits_value base : 2 <= base <= 16 -> forall fuel v,
  0 <= v < base ^ Z.of_nat fuel ->
  fold_right (fun c acc => digit_value c + base * acc) 0 (utoa_digits fuel v base) = v.
Proof.
  intros Hb. induction fuel as [|fuel IH]; intros v Hv.
  - cbn in *. lia.
  - rewrite Nat2Z.inj_succ, Z.pow_succ_r in Hv by lia.
    pose proof (Z.div_mod v base ltac:(lia)) as Hdm.
    pose proof (Z.mod_pos_bound v base ltac:(lia)) as Hm.
    assert (Hq : 0 <= v / base < base ^ Z.of_nat fuel).
    { split; [apply Z.div_pos; lia|apply Z.div_lt_upper_bound; lia]. }
    cbn [utoa_digits]. destruct (Z.eqb_spec (v / base) 0) as [Hz|Hnz].
    + cbn [fold_right]. rewrite digit_value_char by lia. lia.
    + cbn [fold_right]. rewrite IH by exact Hq. rewrite digit_value_char by lia. lia.
Qed.

Lemma utoa_digits_length base : 2 <= base -> forall fuel v (m : nat),
  0 <= v < base ^ Z.of_nat m -> (1 <= m)%nat ->
  (length (utoa_digits fuel v base) <= m)%nat.
Proof.
  intros Hb. induction fuel as [|fuel IH]; intros v m Hv Hm; [cbn; lia|].
  cbn [utoa_digits]. destruct (Z.eqb_spec (v / base) 0) as [Hz|Hnz]; [cbn; lia|].
  cbn [length]. destruct m as [|m]; [lia|].
  rewrite Nat2Z.inj_succ, Z.pow_succ_r in Hv by lia.
  assert (Hq : 0 <= v / base < base ^ Z.of_nat m).
  { split; [apply Z.div_pos; lia|apply Z.div_lt_upper_bound; lia]. }
  destruct m as [|m].
  - cbn in Hq. lia.
  - specialize (IH (v / base) (S m) Hq ltac:(lia)). lia.
Qed.

Lemma utoa_digits_nonempty fuel v base :
  (1 <= fuel)%nat -> (1 <= length (utoa_digits fuel v base))%nat.
Proof.
  destruct fuel as [|fuel]; [lia|]. intros _. cbn [utoa_digits].
  destruct (v / base =? 0); cbn; lia.
Qed.

(** Once the loop has rounds enough for the value, more do not change
    the digits. *)
Lemma utoa_digits_fuel base : 2 <= base -> forall f v g,
  (1 <= f)%nat -> 0 <= v < base ^ Z.of_nat f -> (f <= g)%nat ->
  utoa_digits g v base = utoa_digits f v base.
Proof.
  intros Hb. induction f as [|f IH]; intros v g Hf Hv Hg; [lia|].
  destruct g as [|g]; [lia|]. cbn [utoa_digits].
  destruct (Z.eqb_spec (v / base) 0) as [Hz|Hnz]; [reflexivity|]. f_equal.
  rewrite Nat2Z.inj_succ, Z.pow_succ_r in Hv by lia.
  assert (Hq : 0 <= v / base < base ^ Z.of_nat f).
  { split; [apply Z.div_pos; lia|apply Z.div_lt_upper_bound; lia]. }
  destruct f as [|f]; [cbn in Hq; lia|].
  apply IH; [lia|exact Hq|lia].
Qed.

Lemma positional_rev base ds :
  positional base (rev ds) = fold_right (fun c acc => digit_value c + base * acc) 0 ds.
Proof.
  unfold positional. rewrite <- fold_left_rev_right, rev_involutive.
  induction ds as [|c ds IH]; cbn [fold_right]; [reflexivity|]. rewrite IH. lia.
Qed.




Lemma nondigit_code c : is_digit c = false -> char_code c < 48 \/ 57 < char_code c.
Proof.
  unfold is_digit. rewrite andb_false_iff, !Z.leb_gt. lia.
Qed.

Lemma stringToInt_loop_nondigit s : forall v,
  Exists (fun c => is_digit c = false) s -> stringToInt_loop v s = -1.
Proof.
  induction s as [|c s IH]; intros v Hex; [inversion Hex|].
  cbn [stringToInt_loop].
  destruct ((char_code c <? 48) || (char_code c >? 57)) eqn:Hc; [reflexivity|].
  apply IH. apply Exists_cons in Hex. destruct Hex as [Hnd|Hex]; [|exact Hex].
  apply nondigit_code in Hnd. apply orb_false_iff in Hc.
  destruct Hc as [H1 H2]. apply Z.ltb_ge in H1.
  destruct (Z.gtb_spec (char_code c) 57); [discriminate|]. lia.
Qed.

Lemma digits_or_not (s : list ascii) :
  Forall (fun c => is_digit c = true) s \/ Exists (fun c => is_digit c = false) s.
Proof.
  induction s as [|c s [IH|IH]].
  - left. constructor.
  - destruct (is_digit c) eqn:Hc.
    + left. constructor; assumption.
    + right. apply Exists_cons_hd. exact Hc.
  - right. apply Exists_cons_tl. exact IH.
Qed.

Lemma decimal_from_bound ds : forall v,
  Forall (fun c => is_digit c = true) ds -> 0 <= v ->
  0 <= fold_left (fun v c => v * 10 + (char_code c - 48)) ds v
    < (v + 1) * 10 ^ Z.of_nat (length ds).
Proof.
  induction ds as [|c ds IH]; intros v Hd Hv.
  - cbn. lia.
  - apply Forall_cons in Hd. destruct Hd as [Hc Hd]. apply digit_code in Hc.
    cbn [fold_left length]. rewrite Nat2Z.inj_succ, Z.pow_succ_r by lia.
    specialize (IH (v * 10 + (char_code c - 48)) Hd ltac:(lia)).
    assert (Hp : 0 < 10 ^ Z.of_nat (length ds)) by (apply Z.pow_pos_nonneg; lia).
    nia.
Qed.

(** X2. [stringToInt] on a string of at most 9 characters returns the
    error value -1 exactly when some character is not a digit; on digits
    only it returns their decimal value, below 10^9 (the empty string
    gives 0). *)
Theorem stringToInt_error_iff (a : list ascii) :
  (length (c_string a) <= 9)%nat ->
  (stringToInt a = -1 <-> Exists (fun c => is_digit c = false) (c_string a))
  /\ (Forall (fun c => is_digit c = true) (c_string a) ->
      stringToInt a = decimal (c_string a) /\ 0 <= stringToInt a < 10 ^ 9).
Proof.
  intros Hlen. unfold stringToInt.
  assert (Hdig : Forall (fun c => is_digit c = true) (c_string a) ->
                 stringToInt_loop 0 (c_string a) = decimal (c_string a)
                 /\ 0 <= stringToInt_loop 0 (c_string a) < 10 ^ 9).
  { intros Hd.
    assert (Hpow : 10 ^ Z.of_nat (length (c_string a)) <= 10 ^ 9)
      by (apply Z.pow_le_mono_r; lia).
    assert (Heq : stringToInt_loop 0 (c_string a) = decimal (c_string a)).
    { apply stringToInt_loop_decimal; [exact Hd|lia|].
      change (0 + 1) with 1. rewrite Z.mul_1_l.
      transitivity (10 ^ 9); [exact Hpow|vm_compute; discriminate]. }
    split; [exact Heq|]. rewrite Heq. unfold decimal.
    pose proof (decimal_from_bound (c_string a) 0 Hd ltac:(lia)). lia. }
  split; [|exact Hdig]. split.
  - intros Hm1. destruct (digits_or_not (c_string a)) as [Hd|Hex]; [|exact Hex].
    destruct (Hdig Hd) as [_ Hb]. lia.
  - apply stringToInt_loop_nondigit.
Qed.

Lemma stringToInt_error_iff_witness :
  stringToInt (list_ascii_of_string "12a" ++ [NUL]) = -1
  <-> Exists (fun c => is_digit c = false)
        (c_string (list_ascii_of_string "12a" ++ [NUL])).
Proof.
  refine (proj1 (stringToInt_error_iff (list_ascii_of_string "12a" ++ [NUL]) _)).
  vm_compute. repeat constructor.
Defined.

Lemma utoa_digits_decimal fuel : forall v,
  0 <= v -> Forall (fun c => is_digit c = true) (utoa_digits fuel v 10).
Proof.
  induction fuel as [|fuel IH]; intros v Hv; [constructor|].
  pose proof (Z.mod_pos_bound v 10 ltac:(lia)) as Hm.
  assert (Hd : is_digit (digit_char (v mod 10)) = true).
  { unfold is_digit. rewrite digit_char_decimal by lia.
    apply andb_true_iff. rewrite !Z.leb_le. lia. }
  cbn [utoa_digits]. destruct (v / 10 =? 0).
  - constructor; [exact Hd|constructor].
  - constructor; [exact Hd|]. apply IH. apply Z.div_pos; lia.
Qed.

Lemma c_string_app_nul ds rest :
  Forall (fun c => is_digit c = true) ds -> c_string (ds ++ NUL :: rest) = ds.
Proof.
  induction 1 as [|c ds Hc _ IH]; [reflexivity|].
  cbn [app c_string]. apply digit_code in Hc.
  destruct (Z.eqb_spec (char_code c) 0); [lia|]. rewrite IH. reflexivity.
Qed.

Lemma decimal_positional ds :
  Forall (fun c => is_digit c = true) ds -> decimal ds = positional 10 ds.
Proof.
  unfold decimal, positional. generalize 0.
  induction ds as [|c ds IH]; intros v Hd; [reflexivity|].
  apply Forall_cons in Hd. destruct Hd as [Hc Hd]. apply digit_code in Hc.
  cbn [fold_left]. rewrite IH by exact Hd. f_equal. f_equal.
  unfold digit_value. destruct (Z.leb_spec (char_code c) 57); [reflexivity|lia].
Qed.

(** The decimal text [utoa] writes for a value below 10^9: at most 9
    digit characters that denote the value. *)
Lemma utoa_decimal value :
  0 <= value < 10 ^ 9 ->
  exists ds,
    utoa value 10 = string_of ds
    /\ ds = rev (utoa_digits 9 value 10)
    /\ Forall (fun c => is_digit c = true) ds
    /\ (1 <= length ds <= 9)%nat
    /\ decimal ds = value.
Proof.
  intros Hv. exists (rev (utoa_digits 9 value 10)).
  assert (Hd : Forall (fun c => is_digit c = true) (rev (utoa_digits 9 value 10))).
  { apply Forall_rev, utoa_digits_decimal. lia. }
  split.
  { unfold utoa. cbn [Z.ltb Z.gtb Z.compare Pos.compare Pos.compare_cont orb].
    unfold wrap_uint. rewrite Z.mod_small by lia.
    rewrite (utoa_digits_fuel 10 ltac:(lia) 9 value 32); [reflexivity|lia|exact Hv|lia]. }
  split; [reflexivity|]. split; [exact Hd|]. split.
  { rewrite length_rev. split.
    - apply utoa_digits_nonempty. lia.
    - apply (utoa_digits_length 10 ltac:(lia) 9 value 9); [exact Hv|lia]. }
  rewrite decimal_positional by exact Hd.
  rewrite positional_rev. apply utoa_digits_value; [lia|exact Hv].
Qed.

(** X3. What [utoa] writes in base 10, [stringToInt] reads back, for every
    value below 10^9 and whatever follows the terminator. *)
Theorem stringToInt_utoa_round_trip value rest :
  0 <= value < 10 ^ 9 ->
  stringToInt (list_ascii_of_string (utoa value 10) ++ NUL :: rest) = value.
Proof.
  intros Hv. destruct (utoa_decimal value Hv) as [ds [Hu [_ [Hd [Hlen Hval]]]]].
  rewrite Hu, list_of_string_of. unfold stringToInt.
  rewrite c_string_app_nul by exact Hd.
  rewrite <- Hval. apply stringToInt_loop_decimal; [exact Hd|lia|].
  change (0 + 1) with 1. rewrite Z.mul_1_l.
  transitivity (10 ^ 9); [apply Z.pow_le_mono_r; lia|vm_compute; discriminate].
Qed.

Lemma stringToInt_utoa_round_trip_witness :
  stringToInt (list_ascii_of_string (utoa 100 10) ++ NUL :: list_ascii_of_string "xyz") = 100.
Proof. apply (stringToInt_utoa_round_trip 100). lia. Defined.

Lemma drop_insert_here {A : Type} (l : list A) : forall (i : nat) (x : A),
  (i < length l)%nat -> drop i (<[i := x]> l) = x :: drop (S i) l.
Proof.
  induction l as [|a l IH]; intros [|i] x Hi; cbn [length] in Hi; try lia.
  - reflexivity.
  - change (<[S i := x]> (a :: l)) with (a :: <[i := x]> l).
    cbn [drop]. apply IH. lia.
Qed.

Lemma char_code_digit_of d :
  0 <= d + 48 < 256 -> char_code (digit_of d) = d + 48.
Proof.
  intros Hd. unfold char_code, digit_of. rewrite Z.mod_small by lia.
  rewrite N_ascii_embedding by lia. lia.
Qed.

Lemma digit_of_char d : 0 <= d < 10 -> digit_of d = digit_char d.
Proof.
  intros Hd. apply char_code_inj.
  rewrite char_code_digit_of, digit_char_decimal by lia. lia.
Qed.

(** For a value that fits the rounds left, the loop stores the digits
    [utoa] produces, ending right before the offset it started from. *)
Lemma itoa_loop_nonneg : forall (pos : nat) temp buf,
  (1 <= pos <= 9)%nat -> 0 <= temp < 10 ^ Z.of_nat pos -> (pos <= length buf)%nat ->
  exists buf',
    itoa_loop pos temp buf
      = Done (buf', (pos - length (utoa_digits pos temp 10))%nat)
    /\ drop (pos - length (utoa_digits pos temp 10)) buf'
       = rev (utoa_digits pos temp 10) ++ drop pos buf.
Proof.
  induction pos as [|pos IH]; intros temp buf Hpos Htemp Hlen; [lia|].
  assert (Hp9 : 10 ^ Z.of_nat pos <= 10 ^ 9) by (apply Z.pow_le_mono_r; lia).
  change (10 ^ 9) with 1000000000 in Hp9.
  rewrite Nat2Z.inj_succ, Z.pow_succ_r in Htemp by lia.
  pose proof (Z.mod_pos_bound temp 10 ltac:(lia)) as Hm.
  assert (Hq : 0 <= temp / 10 < 10 ^ Z.of_nat pos).
  { split; [apply Z.div_pos; lia|apply Z.div_lt_upper_bound; lia]. }
  cbn [itoa_loop utoa_digits].
  rewrite Z.rem_mod_nonneg, Z.quot_div_nonneg by lia.
  rewrite digit_of_char by lia.
  rewrite wrap_int_small by (unfold in_int, int_min, int_max; lia).
  set (c := digit_char (temp mod 10)).
  destruct (Z.gtb_spec (temp / 10) 0) as [Hgt|Hle].
  - destruct (Z.eqb_spec (temp / 10) 0); [lia|].
    assert (Hpos1 : (1 <= pos)%nat).
    { destruct pos; [cbn in Hq; lia|lia]. }
    destruct (IH (temp / 10) (<[pos := c]> buf) ltac:(lia) Hq
                ltac:(rewrite length_insert; lia)) as [buf' [Hrun Hdrop]].
    exists buf'. cbn [length]. split.
    + rewrite Hrun. f_equal.
    + replace (S pos - S (length (utoa_digits pos (temp / 10) 10)))%nat
        with (pos - length (utoa_digits pos (temp / 10) 10))%nat by lia.
      rewrite Hdrop, drop_insert_here by lia.
      cbn [rev]. rewrite <- app_assoc. reflexivity.
  - destruct (Z.eqb_spec (temp / 10) 0); [|lia].
    exists (<[pos := c]> buf). cbn [length rev app].
    replace (S pos - 1)%nat with pos by lia.
    split; [reflexivity|]. apply drop_insert_here. lia.
Qed.

Lemma itoa_loop_overflow : forall (pos : nat) temp buf,
  10 ^ Z.of_nat pos <= temp <= int_max ->
  itoa_loop pos temp buf = Undefined OutOfBounds.
Proof.
  induction pos as [|pos IH]; intros temp buf Htemp; [reflexivity|].
  rewrite Nat2Z.inj_succ, Z.pow_succ_r in Htemp by lia.
  assert (Hp : 0 < 10 ^ Z.of_nat pos) by (apply Z.pow_pos_nonneg; lia).
  assert (Hq : 10 ^ Z.of_nat pos <= temp / 10 <= int_max).
  { unfold int_max in *. split.
    - apply Z.div_le_lower_bound; lia.
    - apply Z.lt_succ_r. apply Z.div_lt_upper_bound; lia. }
  cbn [itoa_loop]. rewrite Z.quot_div_nonneg by lia.
  rewrite wrap_int_small by (unfold in_int, int_min, int_max in *; lia).
  destruct (Z.gtb_spec (temp / 10) 0); [|lia].
  apply IH. exact Hq.
Qed.

Lemma formatString_nonneg prefix value suffix stack :
  0 <= value < 10 ^ 9 -> length stack = 10%nat ->
  formatString prefix value suffix stack
  = Done (prefix ++ utoa value 10 ++ suffix)%string.
Proof.
  intros Hv Hlen. unfold formatString.
  destruct (itoa_loop_nonneg 9 value (<[9%nat := NUL]> stack) ltac:(lia) Hv
              ltac:(rewrite length_insert; lia)) as [buf' [Hrun Hdrop]].
  rewrite Hrun. cbn [bind]. rewrite Hdrop.
  rewrite drop_insert_here by lia. rewrite drop_ge by lia.
  destruct (utoa_decimal value Hv) as [ds [Hu [Hds [Hd _]]]].
  rewrite <- Hds, c_string_app_nul by exact Hd. rewrite Hu. reflexivity.
Qed.

(** X4. For a value from 0 up to 999999999, [formatString] writes the
    prefix, the decimal digits of the value (the text [utoa] gives in
    base 10) and the suffix, whatever the temporary array held. *)
Theorem formatString_decimal prefix value suffix stack :
  0 <= value < 10 ^ 9 -> length stack = 10%nat ->
  formatString prefix value suffix stack
  = Done (prefix ++ utoa value 10 ++ suffix)%string.
Proof. apply formatString_nonneg. Qed.

Lemma formatString_decimal_witness :
  formatString "T: " 24 "C" (list_ascii_of_string "0123456789")
  = Done ("T: " ++ utoa 24 10 ++ "C")%string.
Proof. apply formatString_decimal; [lia|reflexivity]. Defined.

(** X5. A value of 1000000000 or more has ten digits: the loop of
    [formatString] then writes in front of its 10-char temporary array. *)
Theorem formatString_ten_digits prefix value suffix stack :
  10 ^ 9 <= value <= int_max ->
  formatString prefix value suffix stack = Undefined OutOfBounds.
Proof.
  intros Hv. unfold formatString.
  rewrite itoa_loop_overflow; [reflexivity|exact Hv].
Qed.

Lemma formatString_ten_digits_witness :
  formatString "T: " 1000000000 "C" (list_ascii_of_string "0123456789")
  = Undefined OutOfBounds.
Proof. apply formatString_ten_digits. unfold int_max. lia. Defined.

(** X6. For a negative value the loop of [formatString] runs once: the
    number is written as the single character of code 48 + (value rem 10),
    one of the ten from 39 to 48, with no sign and no further digit. *)
Theorem formatString_negative prefix value suffix stack :
  int_min <= value < 0 -> length stack = 10%nat ->
  formatString prefix value suffix stack
  = Done (prefix ++ String (digit_of (Z.rem value 10)) EmptyString ++ suffix)%string
  /\ char_code (digit_of (Z.rem value 10)) = 48 + Z.rem value 10
  /\ 39 <= char_code (digit_of (Z.rem value 10)) <= 48.
Proof.
  intros Hv Hlen.
  assert (Hr : -10 < Z.rem value 10 <= 0).
  { replace value with (- (- value)) by lia. rewrite Z.rem_opp_l by lia.
    pose proof (Z.rem_bound_pos (- value) 10 ltac:(lia) ltac:(lia)). lia. }
  assert (Hq : Z.quot value 10 <= 0).
  { replace value with (- (- value)) by lia. rewrite Z.quot_opp_l by lia.
    pose proof (Z.quot_pos (- value) 10 ltac:(lia) ltac:(lia)). lia. }
  assert (Hqi : in_int (Z.quot value 10)).
  { apply quot_in_int; unfold in_int, int_min, int_max in *; lia. }
  assert (Hc : char_code (digit_of (Z.rem value 10)) = 48 + Z.rem value 10)
    by (rewrite char_code_digit_of; lia).
  split; [|split; [exact Hc|lia]].
  unfold formatString. change 9%nat with (S 8) at 2. cbn [itoa_loop].
  rewrite (wrap_int_small _ Hqi).
  destruct (Z.gtb_spec (Z.quot value 10) 0); [lia|]. cbn [bind].
  rewrite drop_insert_here by (rewrite length_insert; lia).
  rewrite drop_insert_here by lia. rewrite drop_ge by lia.
  cbn [c_string]. destruct (Z.eqb_spec (char_code (digit_of (Z.rem value 10))) 0); [lia|].
  change (char_code NUL =? 0) with true. reflexivity.
Qed.

Lemma formatString_negative_witness :
  formatString "T: " (-13) "C" (list_ascii_of_string "0123456789")
  = Done ("T: " ++ String (digit_of (Z.rem (-13) 10)) EmptyString ++ "C")%string.
Proof.
  refine (proj1 (formatString_negative "T: " (-13) "C" (list_ascii_of_string "0123456789") _ _)).
  - unfold int_min. lia.
  - reflexivity.
Defined.

End FormatFacts.

(** ** More on the sample source *)

Section SensorExtras.

Import Sensor.

(** X7. [pseudorandom] returns a 15-bit value, from 0 to 32767, and keeps
    the seed a 32-bit value, whatever the seed was. *)
Theorem pseudorandom_fifteen_bits seed :
  0 <= snd (pseudorandom seed) <= 32767
  /\ 0 <= fst (pseudorandom seed) < 2 ^ 32.
Proof.
  split; [apply pseudorandom_range|].
  unfold pseudorandom, wrap_uint. cbn [fst].
  apply Z.mod_pos_bound. lia.
Qed.

(** X8. The seed update is invertible on 32-bit seeds: the previous seed
    is [(seed' - 12345) * 4005161829] modulo 2^32, so two different seeds
    never lead to the same next seed. *)
Theorem seed_update_invertible seed :
  0 <= seed < 2 ^ 32 ->
  ((fst (pseudorandom seed) - INCREMENT) * 4005161829) mod 2 ^ 32 = seed
  /\ forall other,
       0 <= other < 2 ^ 32 ->
       fst (pseudorandom other) = fst (pseudorandom seed) -> other = seed.
Proof.
  assert (Hinv : forall s, 0 <= s < 2 ^ 32 ->
            ((fst (pseudorandom s) - INCREMENT) * 4005161829) mod 2 ^ 32 = s).
  { intros s Hs. unfold pseudorandom, wrap_uint, MULTIPLIER, INCREMENT. cbn [fst].
    rewrite (Z.mod_eq (s * 1103515245 + 12345) (2 ^ 32)) by lia.
    set (q := (s * 1103515245 + 12345) / 2 ^ 32).
    replace ((s * 1103515245 + 12345 - 2 ^ 32 * q - 12345) * 4005161829)
      with (s + (s * 1029054899 - q * 4005161829) * 2 ^ 32) by lia.
    rewrite Z_mod_plus_full. apply Z.mod_small. exact Hs. }
  intros Hs. split; [apply Hinv; exact Hs|].
  intros other Ho Heq. rewrite <- (Hinv other Ho), Heq. apply Hinv. exact Hs.
Qed.

Lemma seed_update_invertible_witness :
  ((fst (pseudorandom initial_seed) - INCREMENT) * 4005161829) mod 2 ^ 32 = initial_seed.
Proof.
  refine (proj1 (seed_update_invertible initial_seed _)).
  unfold initial_seed. lia.
Defined.

End SensorExtras.

(** ** More on the adaptive filter *)

Section FilterExtras.

Import Filter.

Lemma total_between lo hi l :
  Forall (fun s => lo <= s <= hi) l ->
  lo * Z.of_nat (length l) <= total l <= hi * Z.of_nat (length l).
Proof.
  unfold total. induction 1 as [|a l Ha _ IH]; cbn [fold_right length]; lia.
Qed.

Lemma length_last_k_exact {A : Type} (k : nat) (l : list A) :
  (k <= length l)%nat -> length (last_k k l) = k.
Proof. intros Hk. unfold last_k. rewrite length_drop. lia. Qed.

(** The floor of the mean of a window lies between the bounds of its
    samples. *)
Lemma spec_output_between W h lo hi :
  1 <= W -> h <> [] ->
  Forall (fun s => lo <= s <= hi) h ->
  lo <= spec_output W h (length h) <= hi.
Proof.
  intros HW Hne Hall. unfold spec_output. rewrite firstn_all.
  set (k := Nat.min (length h) (Z.to_nat W)).
  assert (Hlen : (1 <= length h)%nat) by (destruct h; [congruence|cbn; lia]).
  assert (Hk : (1 <= k <= length h)%nat) by (unfold k; lia).
  assert (Hl : Forall (fun s => lo <= s <= hi) (last_k k h))
    by (unfold last_k; apply Forall_drop, Hall).
  pose proof (total_between lo hi _ Hl) as Hb.
  rewrite length_last_k_exact in Hb by lia.
  split.
  - apply Z.div_le_lower_bound; lia.
  - apply Z.div_le_upper_bound; lia.
Qed.

Lemma outputs_between W st0 samples lo hi :
  1 <= W <= MAX_WINDOW_SIZE ->
  window_size st0 <> W ->
  0 <= lo -> hi <= 21474836 ->
  Forall (fun s => lo <= s <= hi) samples ->
  exists outs,
    outputs W samples st0 = Done outs
    /\ length outs = length samples
    /\ Forall (fun v => lo <= v <= hi) outs.
Proof.
  intros HW Hne Hlo Hhi Hall.
  exists (window_outputs W (replicate (Z.to_nat W) 0) [] samples).
  split; [apply outputs_after_change; assumption|].
  split; [apply window_outputs_length|].
  apply Forall_lookup. intros i v Hv.
  assert (Hi : (i < length samples)%nat).
  { apply lookup_lt_Some in Hv. rewrite window_outputs_length in Hv. exact Hv. }
  rewrite window_outputs_lookup in Hv by exact Hi. injection Hv as <-.
  cbn [app]. unfold MAX_WINDOW_SIZE in HW.
  rewrite window_output_zero_pad by lia.
  assert (Hh : Forall (fun s => lo <= s <= hi) (take (S i) samples))
    by (apply Forall_take, Hall).
  assert (Hne' : take (S i) samples <> []).
  { destruct samples; [cbn in Hi; lia|discriminate]. }
  rewrite code_output_spec.
  - apply spec_output_between; [lia|exact Hne'|exact Hh].
  - unfold MAX_WINDOW_SIZE. lia.
  - rewrite length_take. lia.
  - eapply Forall_impl; [exact Hh|]. cbn. intros s Hs. lia.
Qed.

(** X9. Smoothing stays within the data.  After the reset a change to [W]
    causes, if every sample lies between [lo] and [hi] (with 0 <= lo and
    hi <= 21474836), so does every value the filter emits; a constant
    input gives that constant. *)
Theorem filter_output_within_samples W st0 samples lo hi :
  1 <= W <= MAX_WINDOW_SIZE ->
  window_size st0 <> W ->
  0 <= lo -> hi <= 21474836 ->
  Forall (fun s => lo <= s <= hi) samples ->
  exists outs,
    outputs W samples st0 = Done outs
    /\ length outs = length samples
    /\ Forall (fun v => lo <= v <= hi) outs.
Proof. apply outputs_between. Qed.

Lemma filter_output_within_samples_witness :
  exists outs,
    outputs 10 [20; 22; 24] (task_init 5 (replicate 100 0)) = Done outs
    /\ length outs = 3%nat
    /\ Forall (fun v => 20 <= v <= 24) outs.
Proof.
  apply (filter_output_within_samples 10 (task_init 5 (replicate 100 0)) [20; 22; 24] 20 24).
  - unfold MAX_WINDOW_SIZE. lia.
  - cbn. lia.
  - lia.
  - lia.
  - repeat constructor; lia.
Defined.

Lemma outputs_from_task_start W heap samples :
  1 <= W <= MAX_WINDOW_SIZE ->
  length heap = Z.to_nat MAX_WINDOW_SIZE ->
  outputs W samples (task_init W heap)
  = Done (window_outputs W (take (Z.to_nat W) heap) [] samples).
Proof.
  intros HW Hlen. unfold outputs.
  destruct (run_inv W _ samples [] _ (task_init_inv W heap HW Hlen)) as [st [Hrun _]].
  rewrite Hrun. reflexivity.
Qed.

(** X10. What is emitted from task start.  While the window size [W] read
    at task start is unchanged, the n-th value emitted is the truncated
    quotient by [min n W] of: the total of the last [W] elements of
    (first [W] words of the allocated block, then the first n samples),
    less the total of those [W] words, kept in an [int].  The words the
    block held stay in the sum as an offset. *)
Theorem filter_output_from_task_start W heap samples n :
  1 <= W <= MAX_WINDOW_SIZE ->
  length heap = Z.to_nat MAX_WINDOW_SIZE ->
  (1 <= n <= length samples)%nat ->
  exists outs,
    outputs W samples (task_init W heap) = Done outs
    /\ length outs = length samples
    /\ outs !! (n - 1)%nat
       = Some (Z.quot
                 (wrap_int (total (last_k (Z.to_nat W)
                                     (take (Z.to_nat W) heap ++ take n samples))
                            - total (take (Z.to_nat W) heap)))
                 (Z.min (Z.of_nat n) W)).
Proof.
  intros HW Hlen Hn.
  exists (window_outputs W (take (Z.to_nat W) heap) [] samples).
  split; [apply outputs_from_task_start; assumption|].
  split; [apply window_outputs_length|].
  rewrite window_outputs_lookup by lia.
  replace (S (n - 1)) with n by lia. cbn [app].
  unfold window_output, last_k, MAX_WINDOW_SIZE in *.
  rewrite length_app, !length_take.
  replace (Nat.min (Z.to_nat W) (length heap) + Nat.min n (length samples)
           - Z.to_nat W)%nat with (Nat.min n (length samples)) by lia.
  replace (Nat.min n (length samples)) with n by lia.
  reflexivity.
Qed.

Lemma filter_output_from_task_start_witness :
  exists outs,
    outputs 5 [20; 22] (task_init 5 (7 :: replicate 99 0)) = Done outs
    /\ outs !! 1%nat
       = Some (Z.quot
                 (wrap_int (total (last_k 5 (take 5 (7 :: replicate 99 0) ++ take 2 [20; 22]))
                            - total (take 5 (7 :: replicate 99 0))))
                 (Z.min 2 5)).
Proof.
  destruct (filter_output_from_task_start 5 (7 :: replicate 99 0) [20; 22] 2)
    as [outs [H1 [_ H3]]].
  - unfold MAX_WINDOW_SIZE. lia.
  - reflexivity.
  - cbn. lia.
  - exists outs. split; [exact H1|exact H3].
Defined.

(** X11. When the first [W] words of the allocated block are zero, the
    filter behaves from task start as after a reset: the n-th value is
    the truncated mean of the last [min n W] samples. *)
Theorem filter_from_zeroed_block W heap samples n :
  1 <= W <= MAX_WINDOW_SIZE ->
  length heap = Z.to_nat MAX_WINDOW_SIZE ->
  take (Z.to_nat W) heap = replicate (Z.to_nat W) 0 ->
  (1 <= n <= length samples)%nat ->
  exists outs,
    outputs W samples (task_init W heap) = Done outs
    /\ outs !! (n - 1)%nat = Some (code_output W samples n).
Proof.
  intros HW Hlen Hzero Hn.
  exists (window_outputs W (take (Z.to_nat W) heap) [] samples).
  split; [apply outputs_from_task_start; assumption|].
  rewrite window_outputs_lookup by lia.
  replace (S (n - 1)) with n by lia. cbn [app].
  rewrite Hzero, window_output_zero_pad by lia.
  rewrite length_take, (Nat.min_l n (length samples)) by lia.
  unfold code_output. rewrite take_take, Nat.min_id. reflexivity.
Qed.

Lemma filter_from_zeroed_block_witness :
  exists outs,
    outputs 5 [20; 22; 24] (task_init 5 (replicate 100 0)) = Done outs
    /\ outs !! 2%nat = Some (code_output 5 [20; 22; 24] 3).
Proof.
  apply (filter_from_zeroed_block 5 (replicate 100 0) [20; 22; 24] 3).
  - unfold MAX_WINDOW_SIZE. lia.
  - reflexivity.
  - reflexivity.
  - cbn. lia.
Defined.

(** X12. The state invariant from every reset on.  After the samples
    received since a change of the shared value to [W] in [1,100]: the
    count is [min n W] within [0, W], the write position is [n mod W]
    within [0, W), and the sum is the total of the [count] latest samples
    (as an [int]). *)
Theorem filter_invariant_from_reset W st0 x xs :
  1 <= W <= MAX_WINDOW_SIZE ->
  window_size st0 <> W ->
  exists st outs,
    run (map (fun s => (W, s)) (x :: xs)) st0 = Done (st, outs)
    /\ bounds st
    /\ count st = Z.min (Z.of_nat (length (x :: xs))) W
    /\ index st = Z.of_nat (length (x :: xs)) mod W
    /\ sum st = wrap_int (total (last_k (Z.to_nat (count st)) (x :: xs))).
Proof. apply invariant_after_reset. Qed.

Lemma filter_invariant_from_reset_witness :
  exists st outs,
    run (map (fun s => (10, s)) (20 :: [22; 24])) (task_init 5 (replicate 100 7))
      = Done (st, outs)
    /\ bounds st
    /\ count st = Z.min (Z.of_nat (length (20 :: [22; 24]))) 10
    /\ index st = Z.of_nat (length (20 :: [22; 24])) mod 10
    /\ sum st = wrap_int (total (last_k (Z.to_nat (count st)) (20 :: [22; 24]))).
Proof.
  apply (filter_invariant_from_reset 10 (task_init 5 (replicate 100 7)) 20 [22; 24]).
  - unfold MAX_WINDOW_SIZE. lia.
  - cbn. lia.
Defined.

(** X13. A window size of 0 or less makes the first sample divide by zero,
    both right after the reset that adopts it and at task start: the
    range check of the command reader is what keeps the filter defined. *)
Theorem nonpositive_window_divides_by_zero w raw :
  w <= 0 ->
  (forall st, window_size st <> w -> iteration w raw st = Undefined ZeroDivisor)
  /\ (forall heap, heap <> [] -> iteration w raw (task_init w heap) = Undefined ZeroDivisor).
Proof.
  intros Hw.
  assert (Hupd : forall buf, buf <> [] ->
            update_average raw {| window_size := w; buffer := buf;
                                  index := 0; sum := 0; count := 0 |}
            = Undefined ZeroDivisor).
  { intros buf Hbuf. destruct buf as [|b buf]; [congruence|].
    unfold update_average, read, array_get, nonzero.
    cbn [window_size buffer index sum count Z.ltb Z.compare Z.to_nat lookup list_lookup bind].
    destruct (Z.eqb_spec w 0); [reflexivity|]. cbn [bind].
    destruct (Z.ltb_spec 0 w); [lia|]. reflexivity. }
  split.
  - intros st Hne. unfold iteration.
    rewrite check_reconfig_changed by congruence.
    unfold reset_state. rewrite Hupd; [reflexivity|discriminate].
  - intros heap Hheap. unfold iteration, task_init.
    pose proof (check_reconfig_same {| window_size := w; buffer := heap;
                                       index := 0; sum := 0; count := 0 |}) as Hc.
    cbn [window_size] in Hc. rewrite Hc.
    rewrite Hupd by exact Hheap. reflexivity.
Qed.

Lemma nonpositive_window_divides_by_zero_witness :
  iteration 0 20 (task_init 5 (replicate 100 0)) = Undefined ZeroDivisor.
Proof.
  refine (proj1 (nonpositive_window_divides_by_zero 0 20 _) (task_init 5 (replicate 100 0)) _).
  - lia.
  - cbn. lia.
Defined.

Lemma update_average_filling W (i : nat) st x :
  100 < W -> in_int W -> filling W i st -> (i < 100)%nat ->
  exists st' v, update_average x st = Done (st', v) /\ filling W (S i) st'.
Proof.
  unfold filling, MAX_WINDOW_SIZE. intros HW Hint [Hw [Hi [Hc Hlen]]] Hlt.
  destruct (lookup_lt_is_Some_2 (buffer st) i ltac:(lia)) as [old Hold].
  unfold update_average, read, array_get, nonzero.
  destruct (Z.ltb_spec (index st) 0); [lia|].
  rewrite Hi, Nat2Z.id, Hold. cbn [bind]. rewrite Hw, Hc.
  destruct (Z.eqb_spec W 0); [lia|]. cbn [bind].
  destruct (Z.ltb_spec (Z.of_nat i) W); [|lia].
  rewrite !(wrap_int_small (Z.of_nat i + 1)) by (unfold in_int, int_min, int_max; lia).
  destruct (Z.eqb_spec (Z.of_nat i + 1) 0); [lia|]. cbn [bind].
  do 2 eexists. split; [reflexivity|].
  cbn [window_size buffer index sum count]. rewrite length_insert.
  rewrite Z.rem_small by lia. repeat split; try lia; exact Hlen.
Qed.

Lemma update_average_overrun W st x :
  filling W 100 st -> update_average x st = Undefined OutOfBounds.
Proof.
  unfold filling, MAX_WINDOW_SIZE. intros [Hw [Hi [Hc Hlen]]].
  unfold update_average, read, array_get.
  destruct (Z.ltb_spec (index st) 0); [lia|].
  rewrite Hi, Nat2Z.id, lookup_ge_None_2 by lia. reflexivity.
Qed.

Lemma run_filling W : 100 < W -> in_int W -> forall xs (i : nat) st,
  filling W i st -> (i <= 100)%nat ->
  ((i + length xs <= 100)%nat ->
   exists st' outs,
     run (map (fun s => (W, s)) xs) st = Done (st', outs)
     /\ length outs = length xs /\ filling W (i + length xs) st')
  /\ ((100 < i + length xs)%nat ->
      run (map (fun s => (W, s)) xs) st = Undefined OutOfBounds).
Proof.
  intros HW Hint. induction xs as [|x xs IH]; intros i st Hf Hi.
  - cbn [length map run]. split; [|lia]. intros _. exists st, [].
    rewrite Nat.add_0_r. split; [reflexivity|]. split; [reflexivity|exact Hf].
  - cbn [length map run]. unfold iteration.
    replace (check_reconfig W st) with (st, EmptyString)
      by (destruct Hf as [<- _]; symmetry; apply check_reconfig_same).
    destruct (Nat.eq_dec i 100%nat) as [->|Hne].
    + split; [lia|]. intros _. rewrite (update_average_overrun W st x Hf). reflexivity.
    + destruct (update_average_filling W i st x HW Hint Hf ltac:(lia)) as [st1 [v [Hu Hf1]]].
      rewrite Hu. cbn [bind].
      destruct (IH (S i) st1 Hf1 ltac:(lia)) as [Hok Hbad]. split.
      * intros Hle. destruct (Hok ltac:(lia)) as [st2 [outs [Hrun [Hlen Hf2]]]].
        rewrite Hrun. cbn [bind]. exists st2, (v :: outs).
        split; [reflexivity|]. split; [cbn [length]; lia|].
        replace (i + S (length xs))%nat with (S i + length xs)%nat by lia. exact Hf2.
      * intros Hgt. rewrite (Hbad ltac:(lia)). reflexivity.
Qed.

Lemma run_from_changed W st0 x xs :
  window_size st0 <> W ->
  run (map (fun s => (W, s)) (x :: xs)) st0
  = run (map (fun s => (W, s)) (x :: xs)) (reset_state W).
Proof.
  intros Hne. cbn [map run]. unfold iteration.
  rewrite check_reconfig_changed by congruence.
  replace (check_reconfig W (reset_state W)) with (reset_state W, EmptyString)
    by (symmetry; apply (check_reconfig_same (reset_state W))).
  destruct (update_average x (reset_state W)) as [[st1 v]|f]; reflexivity.
Qed.

(** X14. The buffer has 100 slots whatever the window size.  After a
    change to a window size above 100, the first 100 samples are
    processed and the iteration for the next one reads and writes
    [buffer[100]], outside the block: the upper bound of the command
    reader's range check is what keeps the filter inside its buffer. *)
Theorem window_above_capacity_overruns W st0 samples :
  100 < W -> in_int W ->
  window_size st0 <> W ->
  ((length samples <= 100)%nat ->
   exists st outs,
     run (map (fun s => (W, s)) samples) st0 = Done (st, outs)
     /\ length outs = length samples)
  /\ ((100 < length samples)%nat ->
      run (map (fun s => (W, s)) samples) st0 = Undefined OutOfBounds).
Proof.
  intros HW Hint Hne.
  destruct samples as [|x xs].
  { split; [|cbn; lia]. intros _. exists st0, []. split; reflexivity. }
  rewrite run_from_changed by exact Hne.
  assert (Hf : filling W 0 (reset_state W)).
  { unfold filling, reset_state. cbn [window_size buffer index sum count].
    rewrite length_replicate. repeat split. }
  destruct (run_filling W HW Hint (x :: xs) 0 (reset_state W) Hf ltac:(lia)) as [Hok Hbad].
  split.
  - intros Hle. destruct (Hok ltac:(lia)) as [st [outs [Hrun [Hlen _]]]].
    exists st, outs. split; assumption.
  - intros Hgt. apply Hbad. lia.
Qed.

Lemma window_above_capacity_overruns_witness :
  run (map (fun s => (101, s)) (replicate 101 20)) (task_init 5 (replicate 100 0))
  = Undefined OutOfBounds.
Proof.
  refine (proj2 (window_above_capacity_overruns 101 (task_init 5 (replicate 100 0))
                   (replicate 101 20) _ _ _) _).
  - lia.
  - unfold in_int, int_min, int_max. lia.
  - cbn. lia.
  - rewrite length_replicate. lia.
Defined.

End FilterExtras.

(** ** More on the command interface *)

Section UartExtras.

Import Uart.

Lemma string_app_assoc (s1 s2 s3 : string) :
  ((s1 ++ s2) ++ s3 = s1 ++ (s2 ++ s3))%string.
Proof. induction s1 as [|c s1 IH]; cbn; [|rewrite IH]; reflexivity. Qed.

Lemma string_app_nil_r (s : string) : (s ++ EmptyString)%string = s.
Proof. induction s as [|c s IH]; cbn; [|rewrite IH]; reflexivity. Qed.

Lemma run_app cs1 : forall cs2 st shared,
  run (cs1 ++ cs2) st shared
  = let '(st1, shared1, out1) := run cs1 st shared in
    let '(st2, shared2, out2) := run cs2 st1 shared1 in
    (st2, shared2, (out1 ++ out2)%string).
Proof.
  induction cs1 as [|c cs1 IH]; intros cs2 st shared.
  - cbn [app run]. destruct (run cs2 st shared) as [[st2 sh2] o2]. reflexivity.
  - cbn [app run]. destruct (step c st shared) as [[sta sha] oa].
    rewrite IH. destruct (run cs1 sta sha) as [[stb shb] ob].
    destruct (run cs2 stb shb) as [[stc shc] oc].
    rewrite string_app_assoc. reflexivity.
Qed.

(** Digits typed while room remains are stored and echoed, nothing else. *)
Lemma run_digits ds : forall st shared,
  reader_inv st ->
  Forall (fun c => is_digit c = true) ds ->
  inputIndex st + Z.of_nat (length ds) <= 9 ->
  exists st',
    run ds st shared = (st', shared, string_of ds)
    /\ reader_inv st'
    /\ held st' = held st ++ ds
    /\ inputIndex st' = inputIndex st + Z.of_nat (length ds).
Proof.
  induction ds as [|c ds IH]; intros st shared Hinv Hd Hroom.
  - exists st. cbn [run length]. rewrite app_nil_r.
    split; [reflexivity|]. split; [exact Hinv|]. split; [reflexivity|lia].
  - apply Forall_cons in Hd. destruct Hd as [Hc Hd]. cbn [length] in Hroom.
    pose proof Hinv as [Hi [Hlen _]]. unfold INPUT_BUFFER_SIZE in *.
    pose proof (step_inv c st shared Hinv) as Hinv1.
    assert (Hstep : step c st shared =
              ({| inputBuffer := <[Z.to_nat (inputIndex st) := c]> (inputBuffer st);
                  inputIndex := inputIndex st + 1 |}, shared, String c EmptyString)).
    { unfold step. rewrite Hc. unfold wrap_uint, INPUT_BUFFER_SIZE.
      rewrite Z.mod_small by lia.
      destruct (Z.ltb_spec (inputIndex st) (10 - 1)); [|lia].
      rewrite wrap_int_small by (unfold in_int, int_min, int_max; lia). reflexivity. }
    rewrite Hstep in Hinv1. cbn [fst] in Hinv1.
    set (st1 := {| inputBuffer := <[Z.to_nat (inputIndex st) := c]> (inputBuffer st);
                   inputIndex := inputIndex st + 1 |}) in *.
    assert (Hheld : held st1 = held st ++ [c]).
    { unfold held, st1. cbn [inputIndex inputBuffer].
      replace (Z.to_nat (inputIndex st + 1)) with (S (Z.to_nat (inputIndex st))) by lia.
      rewrite (take_S_r _ _ c) by (apply list_lookup_insert_eq; lia).
      rewrite take_insert_ge by lia. reflexivity. }
    destruct (IH st1 shared Hinv1 Hd ltac:(cbn [st1 inputIndex]; lia))
      as [st' [Hrun [Hinv' [Hheld' Hidx']]]].
    exists st'. cbn [run]. rewrite Hstep. fold st1. rewrite Hrun.
    split; [reflexivity|]. split; [exact Hinv'|]. split.
    + rewrite Hheld', Hheld, <- app_assoc. reflexivity.
    + rewrite Hidx'. cbn [st1 inputIndex length]. lia.
Qed.

(** The line terminator on held digits, as one equation. *)
Lemma step_terminator c st shared :
  reader_inv st -> 0 < inputIndex st -> c = CR \/ c = LF ->
  step c st shared =
    let buf := <[Z.to_nat (inputIndex st) := NUL]> (inputBuffer st) in
    let N := decimal (held st) in
    if (N >=? MIN_WINDOW_SIZE) && (N <=? MAX_WINDOW_SIZE)
    then ({| inputBuffer := buf; inputIndex := 0 |}, N,
          (String c EmptyString ++ crlf ++ filter_now_prefix
             ++ string_of (held st) ++ crlf)%string)
    else ({| inputBuffer := buf; inputIndex := 0 |}, shared,
          (String c EmptyString ++ crlf ++ invalid_notice)%string).
Proof.
  intros Hinv Hpos Hc.
  destruct (stringToInt_held st Hinv) as [Hstr Hval].
  assert (Hdig : is_digit c = false) by (destruct Hc; subst; reflexivity).
  apply is_terminator_spec in Hc.
  unfold step. rewrite Hdig, Hc, Hstr, Hval.
  destruct (Z.gtb_spec (inputIndex st) 0); [reflexivity|lia].
Qed.

(** X15. A whole line.  From an empty buffer, one to nine digits followed
    by CR or LF set the shared window size to their decimal value when it
    lies in [10,100] and leave it unchanged otherwise; every character is
    echoed, the confirmation repeats the digits as typed (leading zeros
    included), and the buffer is empty again. *)
Theorem typed_line_sets_window st shared ds c :
  reader_inv st -> inputIndex st = 0 ->
  Forall (fun d => is_digit d = true) ds ->
  (1 <= length ds <= 9)%nat ->
  c = CR \/ c = LF ->
  exists st',
    run (ds ++ [c]) st shared
    = (st',
       (if (decimal ds >=? 10) && (decimal ds <=? 100) then decimal ds else shared),
       (string_of ds ++ String c EmptyString ++ crlf
          ++ (if ((decimal ds >=? 10) && (decimal ds <=? 100))%Z
              then (lf ++ " Filter now N = ") ++ string_of ds ++ crlf
              else lf ++ " Invalid N (10-100)." ++ crlf))%string)
    /\ inputIndex st' = 0.
Proof.
  intros Hinv Hidx Hd Hlen Hc.
  destruct (run_digits ds st shared Hinv Hd ltac:(lia)) as [st1 [Hrun [Hinv1 [Hheld Hidx1]]]].
  assert (Hheld0 : held st = []) by (unfold held; rewrite Hidx; reflexivity).
  rewrite Hheld0 in Hheld. cbn [app] in Hheld.
  pose proof (step_terminator c st1 shared Hinv1 ltac:(lia) Hc) as Hstep.
  rewrite Hheld in Hstep. cbv zeta in Hstep.
  unfold MIN_WINDOW_SIZE, MAX_WINDOW_SIZE in Hstep.
  rewrite run_app, Hrun. cbn [run]. rewrite Hstep.
  destruct ((decimal ds >=? 10) && (decimal ds <=? 100));
    lazy beta iota zeta; rewrite string_app_nil_r;
    eexists; (split; [reflexivity|]); reflexivity.
Qed.

Lemma typed_line_sets_window_witness :
  exists st',
    run (list_ascii_of_string "055" ++ [CR])
        (task_init (list_ascii_of_string "xxxxxxxxxx")) 5
    = (st', 55,
       ("055" ++ String CR EmptyString ++ crlf
          ++ (lf ++ " Filter now N = ") ++ "055" ++ crlf)%string)
    /\ inputIndex st' = 0.
Proof.
  apply (typed_line_sets_window (task_init (list_ascii_of_string "xxxxxxxxxx")) 5
           (list_ascii_of_string "055") CR).
  - apply task_init_reader_inv. reflexivity.
  - reflexivity.
  - repeat constructor.
  - cbn. lia.
  - left. reflexivity.
Defined.

(** X16. A terminator that follows a terminator (the LF of a CR LF pair, a
    repeated Enter) finds the buffer empty: it changes neither the shared
    window size nor the position and sends the " Empty buffer." notice. *)
Theorem second_terminator_reports_empty c1 c2 st shared :
  c1 = CR \/ c1 = LF -> c2 = CR \/ c2 = LF ->
  let st1 := fst (fst (step c1 st shared)) in
  let shared1 := snd (fst (step c1 st shared)) in
  step c2 st1 shared1
  = ({| inputBuffer := <[0%nat := NUL]> (inputBuffer st1); inputIndex := 0 |}, shared1,
     (String c2 EmptyString ++ crlf ++ (lf ++ " Empty buffer." ++ crlf))%string).
Proof.
  intros H1 H2 st1 shared1.
  assert (Hidx : inputIndex st1 = 0).
  { unfold st1, step.
    assert (Hdig : is_digit c1 = false) by (destruct H1; subst; reflexivity).
    apply is_terminator_spec in H1. rewrite Hdig, H1.
    destruct (inputIndex st >? 0); [destruct ((_ >=? _) && (_ <=? _))|]; reflexivity. }
  assert (Hdig : is_digit c2 = false) by (destruct H2; subst; reflexivity).
  apply is_terminator_spec in H2.
  unfold step. rewrite Hdig, H2, Hidx. reflexivity.
Qed.

Lemma second_terminator_reports_empty_witness :
  step LF (fst (fst (step CR {| inputBuffer := list_ascii_of_string "55xxxxxxxx";
                                inputIndex := 2 |} 5))) 55
  = ({| inputBuffer := NUL :: list_ascii_of_string "5" ++ NUL :: list_ascii_of_string "xxxxxxx";
        inputIndex := 0 |}, 55,
     (String LF EmptyString ++ crlf ++ (lf ++ " Empty buffer." ++ crlf))%string).
Proof.
  apply (second_terminator_reports_empty CR LF
           {| inputBuffer := list_ascii_of_string "55xxxxxxxx"; inputIndex := 2 |} 5);
    [left|right]; reflexivity.
Defined.

End UartExtras.


(** ** More on the graph renderer *)

Section DisplayExtras.

Import Display.

Lemma testbit_clear_bit a n m :
  0 <= n < 8 -> 0 <= m < 8 ->
  Z.testbit (wrap_uchar (Z.land a (Z.lnot (Z.shiftl 1 n)))) m
  = negb (m =? n) && Z.testbit a m.
Proof.
  intros Hn Hm. unfold wrap_uchar.
  rewrite Z.mod_pow2_bits_low by lia.
  rewrite Z.land_spec, Z.lnot_spec, Z.shiftl_spec by lia.
  destruct (Z.eqb_spec m n) as [->|Hne].
  - rewrite Z.sub_diag. cbn. apply andb_false_r.
  - destruct (Z_lt_le_dec (m - n) 0).
    + rewrite (Z.testbit_neg_r 1) by lia. cbn. apply andb_true_r.
    + rewrite testbit_one by lia. destruct (Z.eqb_spec (m - n) 0); [lia|].
      cbn. apply andb_true_r.
Qed.

(** X17. [setPixel] changes the addressed pixel and nothing else: inside
    the 96 x 16 area the pixel becomes on for a non-zero [on] and off for
    0, every other pixel keeps its state; outside the area the buffer is
    returned unchanged. *)
Theorem setPixel_changes_one_pixel buf x y on :
  length buf = 192%nat ->
  (0 <= x < 96 -> 0 <= y < 16 ->
   forall x' y', 0 <= x' < 96 -> 0 <= y' < 16 ->
     pixel (setPixel x y on buf) x' y'
     = if (x =? x') && (y =? y') then negb (on =? 0) else pixel buf x' y')
  /\ (~ (0 <= x < 96 /\ 0 <= y < 16) -> setPixel x y on buf = buf).
Proof.
  intros Hlen. split.
  - intros Hx Hy x' y' Hx' Hy'.
    unfold setPixel, pixel, DISPLAY_BUFFER_OFFSET, Y_AXIS_HEIGHT.
    destruct (Z.ltb_spec x 0); [lia|]. destruct (Z.geb_spec x 96); [lia|].
    destruct (Z.ltb_spec y 0); [lia|]. destruct (Z.geb_spec y 16); [lia|].
    cbn [orb]. change (Z.quot 16 2) with 8.
    rewrite Z.quot_div_nonneg, Z.rem_mod_nonneg by lia.
    pose proof (Z.div_mod y 8 ltac:(lia)). pose proof (Z.mod_pos_bound y 8 ltac:(lia)).
    pose proof (Z.div_mod y' 8 ltac:(lia)). pose proof (Z.mod_pos_bound y' 8 ltac:(lia)).
    assert (Hsame : (x =? x') && (y =? y') = true
                    <-> x + y / 8 * 96 = x' + y' / 8 * 96 /\ y' mod 8 = y mod 8).
    { rewrite andb_true_iff, !Z.eqb_eq. lia. }
    destruct Hsame as [Hto Hfrom].
    destruct (negb (on =? 0)) eqn:Hon; rewrite byte_at_insert by lia.
    + destruct (Z.eqb_spec (x + y / 8 * 96) (x' + y' / 8 * 96)) as [Heq|Hne].
      * rewrite testbit_set_bit by lia. rewrite <- Heq.
        destruct ((x =? x') && (y =? y')).
        -- destruct (Hto eq_refl) as [_ ->]. rewrite Z.eqb_refl. reflexivity.
        -- destruct (Z.eqb_spec (y' mod 8) (y mod 8)) as [Hb|Hb]; [|reflexivity].
           specialize (Hfrom (conj Heq Hb)). discriminate.
      * destruct ((x =? x') && (y =? y')); [|reflexivity].
        destruct (Hto eq_refl) as [Habs _]. contradiction.
    + destruct (Z.eqb_spec (x + y / 8 * 96) (x' + y' / 8 * 96)) as [Heq|Hne].
      * rewrite testbit_clear_bit by lia. rewrite <- Heq.
        destruct ((x =? x') && (y =? y')).
        -- destruct (Hto eq_refl) as [_ ->]. rewrite Z.eqb_refl. reflexivity.
        -- destruct (Z.eqb_spec (y' mod 8) (y mod 8)) as [Hb|Hb]; [|reflexivity].
           specialize (Hfrom (conj Heq Hb)). discriminate.
      * destruct ((x =? x') && (y =? y')); [|reflexivity].
        destruct (Hto eq_refl) as [Habs _]. contradiction.
  - intros Hout. unfold setPixel, DISPLAY_BUFFER_OFFSET, Y_AXIS_HEIGHT.
    destruct (Z.ltb_spec x 0); [reflexivity|]. destruct (Z.geb_spec x 96); [reflexivity|].
    destruct (Z.ltb_spec y 0); [reflexivity|]. destruct (Z.geb_spec y 16); [reflexivity|].
    lia.
Qed.

Lemma setPixel_changes_one_pixel_witness :
  pixel (setPixel 3 9 0 (setPixel 3 9 1 initial_buffer)) 3 9
  = if (3 =? 3) && (9 =? 9) then negb (0 =? 0) else pixel (setPixel 3 9 1 initial_buffer) 3 9.
Proof.
  refine (proj1 (setPixel_changes_one_pixel (setPixel 3 9 1 initial_buffer) 3 9 0 _)
            _ _ 3 9 _ _); try lia.
  reflexivity.
Defined.

(** The map of the specification is monotone. *)
Lemma spec_height_mono v1 v2 : v1 <= v2 -> spec_height v1 <= spec_height v2.
Proof.
  intros Hv. unfold spec_height, MIN_TEMPERATURE, MAX_HEIGHT, TEMPERATURE_RANGE.
  pose proof (Z.div_le_mono ((v1 - 15) * 15) ((v2 - 15) * 15) 20 ltac:(lia) ltac:(lia)).
  lia.
Qed.

(** X18. The height grows with the value and saturates at both ends: for
    values whose product [(v-15)*15] fits an [int], a larger value never
    draws lower, every value up to 16 draws at height 0 and every value
    from 35 on at height 15. *)
Theorem graph_height_monotone v1 v2 :
  in_int ((v1 - 15) * 15) -> in_int ((v2 - 15) * 15) -> v1 <= v2 ->
  graph_height v1 <= graph_height v2
  /\ (v1 <= 16 -> graph_height v1 = 0)
  /\ (35 <= v1 -> graph_height v1 = 15).
Proof.
  intros H1 H2 Hv. rewrite !graph_height_spec by assumption.
  split; [apply spec_height_mono; exact Hv|].
  unfold spec_height, MIN_TEMPERATURE, MAX_HEIGHT, TEMPERATURE_RANGE. split; intros Hb.
  - assert ((v1 - 15) * 15 / 20 <= 0).
    { apply Z.lt_succ_r. apply Z.div_lt_upper_bound; lia. }
    lia.
  - assert (15 <= (v1 - 15) * 15 / 20) by (apply Z.div_le_lower_bound; lia).
    lia.
Qed.

Lemma graph_height_monotone_witness :
  graph_height 20 <= graph_height 30.
Proof.
  refine (proj1 (graph_height_monotone 20 30 _ _ _));
    unfold in_int, int_min, int_max; lia.
Defined.

Lemma byte_at_range buf i :
  Forall (fun b => 0 <= b < 256) buf -> 0 <= byte_at buf i < 256.
Proof.
  intros Hall. unfold byte_at, array_get.
  destruct (i <? 0); [cbn; lia|].
  destruct (buf !! Z.to_nat i) as [b|] eqn:Hb; [|cbn; lia].
  cbn. apply (proj1 (Forall_lookup _ _) Hall _ _ Hb).
Qed.

Lemma wrap_uchar_range z : 0 <= wrap_uchar z < 256.
Proof. unfold wrap_uchar. apply Z.mod_pos_bound. lia. Qed.

Lemma setPixel_range x y on buf :
  Forall (fun b => 0 <= b < 256) buf ->
  Forall (fun b => 0 <= b < 256) (setPixel x y on buf).
Proof.
  intros Hall. unfold setPixel. destruct (_ || _); [exact Hall|].
  destruct (negb _); apply Forall_insert; auto using wrap_uchar_range.
Qed.

Lemma for_loop_preserves {S : Type} (P : S -> Prop) (body : Z -> S -> S) (n : nat) s :
  (forall i s', P s' -> P (body i s')) -> P s -> P (for_loop n body s).
Proof.
  intros Hbody Hs. induction n as [|n IH]; [exact Hs|].
  rewrite for_loop_S. apply Hbody, IH.
Qed.

(** A frame leaves the buffer a well-formed array of bytes. *)
Lemma render_well_formed v buf : well_formed buf -> well_formed (render v buf).
Proof.
  intros [Hlen Hall]. split.
  { apply (pixel_render v buf 0 0 Hlen); lia. }
  unfold render.
  apply for_loop_preserves; [intros; apply setPixel_range; assumption|].
  apply for_loop_preserves; [intros; apply setPixel_range; assumption|].
  apply setPixel_range. apply Forall_insert; [|lia]. apply Forall_insert; [|lia].
  unfold shift_left. apply for_loop_preserves; [|exact Hall].
  intros i b Hb. unfold shift_body.
  apply Forall_insert; [apply Forall_insert; [exact Hb|]|].
  - apply byte_at_range. exact Hb.
  - apply byte_at_range. apply Forall_insert; [exact Hb|]. apply byte_at_range. exact Hb.
Qed.

Lemma render_all_well_formed vs : forall buf,
  well_formed buf -> well_formed (render_all vs buf).
Proof.
  induction vs as [|v vs IH] using rev_ind; intros buf Hwf; [exact Hwf|].
  rewrite render_all_snoc. apply render_well_formed, IH, Hwf.
Qed.

(** Two well-formed buffers that show the same picture are the same
    array. *)
Lemma same_picture_same_bytes b1 b2 :
  well_formed b1 -> well_formed b2 ->
  (forall x y, 0 <= x < 96 -> 0 <= y < 16 -> pixel b1 x y = pixel b2 x y) ->
  b1 = b2.
Proof.
  intros [Hl1 Ha1] [Hl2 Ha2] Hpix. apply list_eq. intros i.
  destruct (Nat.lt_ge_cases i 192) as [Hi|Hi].
  2:{ rewrite !lookup_ge_None_2 by lia. reflexivity. }
  destruct (lookup_lt_is_Some_2 b1 i ltac:(lia)) as [a1 H1].
  destruct (lookup_lt_is_Some_2 b2 i ltac:(lia)) as [a2 H2].
  rewrite H1, H2. f_equal.
  pose proof (proj1 (Forall_lookup _ _) Ha1 _ _ H1) as Hr1.
  pose proof (proj1 (Forall_lookup _ _) Ha2 _ _ H2) as Hr2.
  cbn beta in Hr1, Hr2.
  apply Z.bits_inj'. intros n Hn.
  destruct (Z_lt_le_dec n 8) as [Hlt|Hge].
  - set (x := Z.of_nat i mod 96). set (page := Z.of_nat i / 96).
    pose proof (Z.div_mod (Z.of_nat i) 96 ltac:(lia)) as Hdm.
    pose proof (Z.mod_pos_bound (Z.of_nat i) 96 ltac:(lia)) as Hm.
    fold x page in Hdm, Hm.
    assert (Hpage : 0 <= page <= 1).
    { unfold page. split; [apply Z.div_pos; lia|].
      apply Z.lt_succ_r. apply Z.div_lt_upper_bound; lia. }
    specialize (Hpix x (8 * page + n) ltac:(lia) ltac:(lia)).
    unfold pixel, DISPLAY_BUFFER_OFFSET in Hpix.
    replace ((8 * page + n) / 8) with page in Hpix
      by (apply (Z.div_unique _ 8 page n); lia).
    replace ((8 * page + n) mod 8) with n in Hpix
      by (apply (Z.mod_unique _ 8 page n); lia).
    replace (x + page * 96) with (Z.of_nat i) in Hpix by lia.
    rewrite (byte_at_lookup b1 (Z.of_nat i) a1) in Hpix by (rewrite ?Nat2Z.id; lia || exact H1).
    rewrite (byte_at_lookup b2 (Z.of_nat i) a2) in Hpix by (rewrite ?Nat2Z.id; lia || exact H2).
    exact Hpix.
  - rewrite <- (Z.mod_small a1 (2 ^ 8)), <- (Z.mod_small a2 (2 ^ 8)) by lia.
    rewrite !Z.mod_pow2_bits_high by lia. reflexivity.
Qed.

(** The picture after at least 95 frames, pixel by pixel, is that of the
    last 95 values. *)
Lemma picture_of_recent vs v buf older buf' x y :
  length buf = 192%nat -> length buf' = 192%nat ->
  (95 <= length (vs ++ [v]))%nat ->
  0 <= x < 96 -> 0 <= y < 16 ->
  pixel (render_all (older ++ vs ++ [v]) buf') x y = pixel (render_all (vs ++ [v]) buf) x y.
Proof.
  intros Hlen Hlen' Hn Hx Hy.
  assert (Hframe : forall b, length b = 192%nat -> forall hist,
            pixel (render_all (hist ++ [v]) b) x y
            = (x =? 0) || (y =? 15)
              || (if x =? 95 then y =? 15 - graph_height v
                  else pixel (render_all hist b) (x + 1) y)).
  { intros b Hb hist. rewrite render_all_snoc.
    apply (pixel_render v (render_all hist b) x y (length_render_all hist b Hb));
      assumption. }
  destruct (Z.eqb_spec x 0) as [->|Hx0].
  { rewrite app_assoc, !Hframe by assumption. reflexivity. }
  destruct (Z.eqb_spec y 15) as [->|Hy15].
  { rewrite app_assoc, !Hframe by assumption. rewrite !orb_true_r. reflexivity. }
  rewrite !pixel_render_all by (assumption || lia).
  rewrite rev_app_distr.
  assert (Hk : (Z.to_nat (95 - x) < length (rev (vs ++ [v])))%nat)
    by (rewrite length_rev; lia).
  rewrite lookup_app_l by exact Hk.
  destruct (lookup_lt_is_Some_2 _ _ Hk) as [u ->]. reflexivity.
Qed.

(** X19. The submitted bitmap forgets.  Once 95 or more values have been
    rendered, the 192 bytes handed to the display are determined by the
    last of them alone: neither older values nor the initial contents of
    the buffer leave a trace. *)
Theorem bitmap_depends_on_recent_values recent older buf buf' :
  well_formed buf -> well_formed buf' ->
  (95 <= length recent)%nat ->
  render_all (older ++ recent) buf' = render_all recent buf.
Proof.
  intros Hwf Hwf' Hn.
  destruct recent as [|r0 rs] using rev_ind; [cbn in Hn; lia|].
  apply same_picture_same_bytes.
  - apply render_all_well_formed, Hwf'.
  - apply render_all_well_formed, Hwf.
  - intros x y Hx Hy.
    apply picture_of_recent; [apply Hwf|apply Hwf'|exact Hn|exact Hx|exact Hy].
Qed.

Lemma bitmap_depends_on_recent_values_witness :
  render_all ([35; 15; 25] ++ replicate 95 20) (replicate 192 255)
  = render_all (replicate 95 20) initial_buffer.
Proof.
  apply bitmap_depends_on_recent_values.
  - split; [reflexivity|]. apply Forall_replicate. lia.
  - split; [reflexivity|]. apply Forall_replicate. lia.
  - rewrite length_replicate. lia.
Defined.

End DisplayExtras.

(** ** More on the resource monitor *)

Section MonitorExtras.

Import Uart Monitor Format.

Lemma string_length_app (s1 s2 : string) :
  String.length (s1 ++ s2) = (String.length s1 + String.length s2)%nat.
Proof. induction s1 as [|c s1 IH]; cbn; [|rewrite IH]; reflexivity. Qed.

Lemma length_spaces n : String.length (spaces n) = n.
Proof. unfold spaces. rewrite length_string_of. apply repeat_length. Qed.

Lemma cpu_percent_bound runTimeCounter totalRunTime :
  0 <= runTimeCounter <= totalRunTime -> totalRunTime < 2 ^ 32 ->
  0 <= cpu_percent runTimeCounter totalRunTime <= 100.
Proof.
  intros Hr Ht. unfold cpu_percent, wrap_uint.
  destruct (Z.gtb_spec totalRunTime 0); [|lia].
  pose proof (Z.mod_pos_bound (runTimeCounter * 100) (2 ^ 32) ltac:(lia)) as Hp.
  set (p := (runTimeCounter * 100) mod 2 ^ 32) in *.
  assert (Hle : p <= totalRunTime * 100).
  { destruct (Z_lt_le_dec (runTimeCounter * 100) (2 ^ 32)) as [Hs|Hb].
    - unfold p. rewrite Z.mod_small by lia. lia.
    - lia. }
  assert (Hq : 0 <= p / totalRunTime <= 100).
  { split; [apply Z.div_pos; lia|apply Z.div_le_upper_bound; lia]. }
  rewrite Z.mod_small by lia. exact Hq.
Qed.

(** X20. The reported value never exceeds 100.  For a task counter that is
    at most the total run time, the CPU value [formatTaskStats] prints
    lies between 0 and 100, also when the 32-bit product has wrapped. *)
Theorem cpu_percent_at_most_100 runTimeCounter totalRunTime :
  0 <= runTimeCounter <= totalRunTime -> totalRunTime < 2 ^ 32 ->
  0 <= cpu_percent runTimeCounter totalRunTime <= 100.
Proof. apply cpu_percent_bound. Qed.

Lemma cpu_percent_at_most_100_witness :
  0 <= cpu_percent 4000000000 4000000000 <= 100.
Proof. apply cpu_percent_at_most_100; lia. Defined.

(** X21. Below the wrap-around the percentage is exact.  While the task
    counter times 100 is less than 2^32 (a counter up to 42949672), the
    value printed is the floor of counter*100/total, and 0 for a total
    of 0. *)
Theorem cpu_percent_exact_below_wrap runTimeCounter totalRunTime :
  0 <= runTimeCounter -> runTimeCounter * 100 < 2 ^ 32 ->
  0 <= totalRunTime < 2 ^ 32 ->
  cpu_percent runTimeCounter totalRunTime
  = if totalRunTime >? 0 then runTimeCounter * 100 / totalRunTime else 0.
Proof. apply cpu_percent_exact. Qed.

Lemma cpu_percent_exact_below_wrap_witness :
  cpu_percent 42949672 85899344
  = if 85899344 >? 0 then 42949672 * 100 / 85899344 else 0.
Proof. apply cpu_percent_exact_below_wrap; lia. Defined.

Lemma utoa_length_decimal value :
  (1 <= String.length (utoa value 10) <= 10)%nat.
Proof.
  unfold utoa. cbn [Z.ltb Z.gtb Z.compare Pos.compare Pos.compare_cont orb].
  rewrite length_string_of, length_rev.
  pose proof (Z.mod_pos_bound value (2 ^ 32) ltac:(lia)) as Hv. fold (wrap_uint value) in Hv.
  split; [apply utoa_digits_nonempty; lia|].
  apply (utoa_digits_length 10 ltac:(lia) 32 (wrap_uint value) 10); [|lia].
  change (10 ^ Z.of_nat 10) with 10000000000. lia.
Qed.

Lemma utoa_length_small cpu :
  0 <= cpu < 1000 ->
  String.length (utoa cpu 10)
  = if cpu <? 10 then 1%nat else if cpu <? 100 then 2%nat else 3%nat.
Proof.
  intros Hc. unfold utoa. cbn [Z.ltb Z.gtb Z.compare Pos.compare Pos.compare_cont orb].
  rewrite length_string_of, length_rev. unfold wrap_uint. rewrite Z.mod_small by lia.
  rewrite (utoa_digits_fuel 10 ltac:(lia) 3 cpu 32) by (lia || (change (10 ^ Z.of_nat 3) with 1000; lia)).
  cbn [utoa_digits].
  pose proof (Z.div_mod cpu 10 ltac:(lia)). pose proof (Z.mod_pos_bound cpu 10 ltac:(lia)).
  pose proof (Z.div_mod (cpu / 10) 10 ltac:(lia)).
  pose proof (Z.mod_pos_bound (cpu / 10) 10 ltac:(lia)).
  pose proof (Z.div_mod (cpu / 10 / 10) 10 ltac:(lia)).
  pose proof (Z.mod_pos_bound (cpu / 10 / 10) 10 ltac:(lia)).
  destruct (Z.ltb_spec cpu 10), (Z.ltb_spec cpu 100),
    (Z.eqb_spec (cpu / 10) 0), (Z.eqb_spec (cpu / 10 / 10) 0),
    (Z.eqb_spec (cpu / 10 / 10 / 10) 0); cbn [length]; try reflexivity; lia.
Qed.

(** X22. The columns of a task line.  For a task name of at most 9
    characters and a counter that is at most the total run time, the
    line is a 15-character name field, " | CPU: ", a 5-character CPU
    field, then "| Stack Free: " and the rest, so the stack column starts
    at the same place in every line; the whole line has at most 73
    characters and fits the 128-byte buffer with its terminator. *)
Theorem task_line_columns task totalRunTime :
  (String.length (pcTaskName task) <= 9)%nat ->
  0 <= ulRunTimeCounter task <= totalRunTime -> totalRunTime < 2 ^ 32 ->
  exists name_field cpu_field,
    formatTaskStats task totalRunTime
    = (name_field ++ " | CPU: " ++ cpu_field ++ "| Stack Free: "
         ++ utoa (usStackHighWaterMark task) 10
         ++ " | State: " ++ utoa (eCurrentState task) 10 ++ lf)%string
    /\ String.length name_field = 15%nat
    /\ String.length cpu_field = 5%nat
    /\ (String.length (formatTaskStats task totalRunTime) <= 73)%nat.
Proof.
  intros Hname Hr Ht.
  pose proof (cpu_percent_bound _ _ Hr Ht) as Hcpu.
  set (cpu := cpu_percent (ulRunTimeCounter task) totalRunTime) in *.
  set (cpuDigits := if cpu <? 10 then 1%nat else if cpu <? 100 then 2%nat else 3%nat).
  exists ("Name: " ++ pcTaskName task ++ spaces (9 - String.length (pcTaskName task)))%string,
         (utoa cpu 10 ++ "%" ++ spaces (5 - (cpuDigits + 1)))%string.
  assert (Hd : (1 <= cpuDigits <= 3)%nat).
  { unfold cpuDigits. destruct (cpu <? 10); [lia|]. destruct (cpu <? 100); lia. }
  assert (Hlen_name : String.length ("Name: " ++ pcTaskName task
                        ++ spaces (9 - String.length (pcTaskName task))) = 15%nat).
  { rewrite !string_length_app, length_spaces. cbn [String.length]. lia. }
  assert (Hlen_cpu : String.length (utoa cpu 10 ++ "%" ++ spaces (5 - (cpuDigits + 1)))
                     = 5%nat).
  { rewrite !string_length_app, length_spaces, utoa_length_small by lia.
    fold cpuDigits. cbn [String.length]. lia. }
  assert (Heq : formatTaskStats task totalRunTime
    = (("Name: " ++ pcTaskName task ++ spaces (9 - String.length (pcTaskName task)))
         ++ " | CPU: " ++ (utoa cpu 10 ++ "%" ++ spaces (5 - (cpuDigits + 1)))
         ++ "| Stack Free: " ++ utoa (usStackHighWaterMark task) 10
         ++ " | State: " ++ utoa (eCurrentState task) 10 ++ lf)%string).
  { unfold formatTaskStats. fold cpu. fold cpuDigits.
    repeat rewrite string_app_assoc. reflexivity. }
  split; [exact Heq|]. split; [exact Hlen_name|]. split; [exact Hlen_cpu|].
  rewrite Heq. rewrite (string_length_app _ (" | CPU: " ++ _)), Hlen_name.
  rewrite (string_length_app " | CPU: "), (string_length_app (utoa cpu 10 ++ _)), Hlen_cpu.
  rewrite (string_length_app "| Stack Free: "), (string_length_app (utoa _ 10)).
  rewrite (string_length_app " | State: "), (string_length_app (utoa _ 10)).
  pose proof (utoa_length_decimal (usStackHighWaterMark task)).
  pose proof (utoa_length_decimal (eCurrentState task)).
  cbn [String.length lf]. lia.
Qed.

Lemma task_line_columns_witness :
  exists name_field cpu_field,
    formatTaskStats {| pcTaskName := "IDLE"; ulRunTimeCounter := 5;
                       usStackHighWaterMark := 50; eCurrentState := 2 |} 10
    = (name_field ++ " | CPU: " ++ cpu_field ++ "| Stack Free: "
         ++ utoa 50 10 ++ " | State: " ++ utoa 2 10 ++ lf)%string
    /\ String.length name_field = 15%nat
    /\ String.length cpu_field = 5%nat.
Proof.
  destruct (task_line_columns {| pcTaskName := "IDLE"; ulRunTimeCounter := 5;
                                 usStackHighWaterMark := 50; eCurrentState := 2 |} 10)
    as [nf [cf [H1 [H2 [H3 _]]]]].
  - cbn. lia.
  - cbn. lia.
  - lia.
  - exists nf, cf. repeat split; assumption.
Defined.

End MonitorExtras.


(** ** The task table of the monitor *)

Section TopTaskFacts.

Import TopTask.

Lemma forall_map_send {A : Type} (f : A -> string) (l : list A) :
  Forall (fun a => misuse a = false) (map (fun t => Send (f t)) l).
Proof. induction l; constructor; auto. Qed.

Lemma step_settled r floor st :
  settled floor st -> floor <= tasks_now r ->
  settled (tasks_now r) (fst (step r st))
  /\ Forall (fun a => misuse a = false) (snd (step r st)).
Proof.
  intros Hs Hfloor. unfold step.
  destruct (Z.gtb_spec (tasks_now r) (uxMaxTasks st)) as [Hgt|Hle].
  - assert (Hfree : Forall (fun a => misuse a = false)
                      (if is_null (pxTaskStatusArray st) then []
                       else [Free (pxTaskStatusArray st)])).
    { destruct Hs as [Hb|[Hn _]]; [rewrite Hb|rewrite Hn]; cbn; repeat constructor. }
    destruct (malloc_ok r); cbn [fst snd].
    + split; [left; reflexivity|].
      repeat (apply Forall_app; split); try exact Hfree;
        try apply forall_map_send; repeat constructor.
      cbn. rewrite Z.leb_refl. reflexivity.
    + split; [right; split; [reflexivity|exact Hgt]|].
      repeat (apply Forall_app; split); try exact Hfree; repeat constructor.
  - cbn [fst snd]. destruct Hs as [Hb|[_ Hn]]; [|lia].
    split; [left; exact Hb|].
    repeat (apply Forall_app; split); try apply forall_map_send; repeat constructor.
    rewrite Hb. cbn. apply negb_false_iff, Z.leb_le. exact Hle.
Qed.

Lemma run_settled rs : forall floor st,
  settled floor st -> rising floor rs ->
  Forall (fun a => misuse a = false) (snd (run rs st)).
Proof.
  induction rs as [|r rs IH]; intros floor st Hs Hr; [constructor|].
  destruct Hr as [Hfloor Hrest]. cbn [run].
  destruct (step_settled r floor st Hs Hfloor) as [Hs1 Ha1].
  destruct (step r st) as [st1 a1]. cbn [fst snd] in *.
  specialize (IH _ _ Hs1 Hrest).
  destruct (run rs st1) as [st2 a2]. cbn [snd] in *.
  apply Forall_app. split; assumption.
Qed.

Lemma track_app a : forall held b,
  track held (a ++ b)
  = match track held a with
    | Some held' => track held' b
    | None => None
    end.
Proof.
  induction a as [|x a IH]; intros held b; [reflexivity|].
  destruct x as [t|p|n p|p size|]; cbn [app track].
  - apply IH.
  - destruct p as [| |c]; try reflexivity.
    destruct held as [h|]; [|reflexivity]. destruct (h =? c); [apply IH|reflexivity].
  - destruct p as [| |c]; try reflexivity.
    + destruct held; [reflexivity|apply IH].
    + destruct held; [reflexivity|]. destruct (n =? c); [apply IH|reflexivity].
  - destruct p as [| |c]; try reflexivity.
    destruct held as [h|]; [|reflexivity].
    destruct ((h =? c) && (size <=? c)); [apply IH|reflexivity].
  - apply IH.
Qed.

Lemma track_sends {A : Type} (f : A -> string) (l : list A) held :
  track held (map (fun t => Send (f t)) l) = Some held.
Proof. induction l as [|x l IH]; [reflexivity|]. cbn [map track]. exact IH. Qed.

(** One round keeps the books: from a settled state whose pointer and
    ownership agree, the round's actions are all allowed and leave a
    settled state that agrees with the ownership again. *)
Ltac follow_trace :=
  repeat (progress (cbn [app track andb]; rewrite ?Z.eqb_refl, ?Z.leb_refl));
  rewrite ?track_app, ?track_sends; cbn [track]; try reflexivity.

Lemma step_tracked r floor st :
  settled floor st -> floor <= tasks_now r ->
  track (owned st) (snd (step r st)) = Some (owned (fst (step r st)))
  /\ settled (tasks_now r) (fst (step r st)).
Proof.
  intros Hs Hfloor. split; [|apply (step_settled r floor st Hs Hfloor)].
  unfold step, owned.
  destruct (Z.gtb_spec (tasks_now r) (uxMaxTasks st)) as [Hgt|Hle].
  - destruct Hs as [Hb|[Hn _]]; [rewrite Hb|rewrite Hn]; cbn [is_null];
      destruct (malloc_ok r); cbn [fst snd pxTaskStatusArray]; follow_trace.
  - cbn [fst snd]. destruct Hs as [Hb|[_ Hn]]; [|lia].
    rewrite Hb. cbn [app track]. rewrite Z.eqb_refl.
    destruct (Z.leb_spec (tasks_now r) (uxMaxTasks st)); [|lia].
    follow_trace.
Qed.

Lemma run_tracked rs : forall floor st,
  settled floor st -> rising floor rs ->
  track (owned st) (snd (run rs st)) = Some (owned (fst (run rs st))).
Proof.
  induction rs as [|r rs IH]; intros floor st Hs Hr; [reflexivity|].
  destruct Hr as [Hfloor Hrest]. cbn [run].
  destruct (step_tracked r floor st Hs Hfloor) as [Ht Hs1].
  destruct (step r st) as [st1 a1]. cbn [fst snd] in *.
  specialize (IH _ _ Hs1 Hrest).
  destruct (run rs st1) as [st2 a2]. cbn [fst snd] in *.
  rewrite track_app, Ht. exact IH.
Qed.

(** X23. With the pointer null at task start and a number of tasks that is
    at least 1 and never falls, the task keeps its heap block in order,
    whichever allocations fail.  Followed action by action from "no block
    owned", its trace never frees anything but the block it owns at that
    moment (so no block twice), never allocates while it still owns one,
    and always hands [uxTaskGetSystemState] the block it owns, with room
    for the number of tasks asked for; at the end it owns the block its
    pointer names, or none when the pointer is null. *)
Theorem task_table_never_misused rs :
  rising 1 rs ->
  track None (snd (run rs (task_init Null)))
  = Some (owned (fst (run rs (task_init Null))))
  /\ Forall (fun a => misuse a = false) (snd (run rs (task_init Null))).
Proof.
  intros Hr.
  assert (Hs : settled 1 (task_init Null)).
  { right. split; [reflexivity|]. cbn. lia. }
  split.
  - apply (run_tracked rs 1 (task_init Null) Hs Hr).
  - apply (run_settled rs 1 (task_init Null) Hs Hr).
Qed.

Lemma task_table_never_misused_witness :
  track None
    (snd (run [ {| tasks_now := 8; free_heap := 1000; malloc_ok := false;
                   snapshot := []; total_run_time := 0 |};
                {| tasks_now := 8; free_heap := 1000; malloc_ok := true;
                   snapshot := []; total_run_time := 0 |};
                {| tasks_now := 9; free_heap := 1000; malloc_ok := true;
                   snapshot := []; total_run_time := 0 |} ]
              (task_init Null)))
  = Some (Some 9).
Proof.
  refine (proj1 (task_table_never_misused
            [ {| tasks_now := 8; free_heap := 1000; malloc_ok := false;
                 snapshot := []; total_run_time := 0 |};
              {| tasks_now := 8; free_heap := 1000; malloc_ok := true;
                 snapshot := []; total_run_time := 0 |};
              {| tasks_now := 9; free_heap := 1000; malloc_ok := true;
                 snapshot := []; total_run_time := 0 |} ] _)).
  cbn. lia.
Defined.

(** The books do tell a held block from a freed one: freeing the same
    block twice is refused. *)
Example track_refuses_second_free :
  track (Some 8) [Free (Block 8); Free (Block 8)] = None.
Proof. reflexivity. Qed.

(** X24. The pointer is used before it is given a value.  If the local
    happens to hold a non-null value at task start, the first round (in
    which the number of tasks exceeds the initial [uxMaxTasks] = 0) hands
    that value to [vPortFree] before anything was allocated. *)
Theorem first_round_frees_indeterminate_pointer r :
  0 < tasks_now r ->
  In (Free Wild) (snd (step r (task_init Wild)))
  /\ existsb misuse (snd (step r (task_init Wild))) = true.
Proof.
  intros Hn. unfold step, task_init. cbn [uxMaxTasks pxTaskStatusArray is_null].
  destruct (Z.gtb_spec (tasks_now r) 0); [|lia].
  destruct (malloc_ok r); cbn [snd]; split;
    try (apply in_or_app; right; left; reflexivity);
    rewrite existsb_app; cbn; reflexivity.
Qed.

Lemma first_round_frees_indeterminate_pointer_witness :
  In (Free Wild)
    (snd (step {| tasks_now := 8; free_heap := 1000; malloc_ok := true;
                  snapshot := []; total_run_time := 0 |} (task_init Wild))).
Proof.
  refine (proj1 (first_round_frees_indeterminate_pointer _ _)). cbn. lia.
Defined.

(** X25. A failed growth loses the table.  If the number of tasks rises
    above the block held, the block is freed before the new allocation,
    and when that fails the pointer is null while [uxMaxTasks] keeps its
    value; should the number of tasks then be back within [uxMaxTasks],
    the next round passes the null pointer to [uxTaskGetSystemState]. *)
Theorem failed_growth_then_null_report capacity r1 r2 :
  capacity < tasks_now r1 -> malloc_ok r1 = false ->
  tasks_now r2 <= capacity ->
  let st := {| pxTaskStatusArray := Block capacity; uxMaxTasks := capacity |} in
  In (Free (Block capacity)) (snd (step r1 st))
  /\ fst (step r1 st) = {| pxTaskStatusArray := Null; uxMaxTasks := capacity |}
  /\ In (GetSystemState Null (tasks_now r2)) (snd (step r2 (fst (step r1 st)))).
Proof.
  intros H1 Hfail H2 st. unfold step, st. cbn [uxMaxTasks pxTaskStatusArray is_null].
  destruct (Z.gtb_spec (tasks_now r1) capacity); [|lia]. rewrite Hfail. cbn [fst snd].
  split; [apply in_or_app; right; left; reflexivity|]. split; [reflexivity|].
  cbn [uxMaxTasks pxTaskStatusArray].
  destruct (Z.gtb_spec (tasks_now r2) capacity); [lia|]. cbn [snd].
  apply in_or_app. right. left. reflexivity.
Qed.

Lemma failed_growth_then_null_report_witness :
  In (GetSystemState Null 8)
    (snd (step {| tasks_now := 8; free_heap := 10; malloc_ok := true;
                  snapshot := []; total_run_time := 0 |}
            (fst (step {| tasks_now := 9; free_heap := 10; malloc_ok := false;
                          snapshot := []; total_run_time := 0 |}
                    {| pxTaskStatusArray := Block 8; uxMaxTasks := 8 |})))).
Proof.
  refine (proj2 (proj2 (failed_growth_then_null_report 8
            {| tasks_now := 9; free_heap := 10; malloc_ok := false;
               snapshot := []; total_run_time := 0 |}
            {| tasks_now := 8; free_heap := 10; malloc_ok := true;
               snapshot := []; total_run_time := 0 |} _ _ _))).
  - cbn. lia.
  - reflexivity.
  - cbn. lia.
Defined.

End TopTaskFacts.


(** ** The pipeline end to end *)

Section PipelineFacts.

Import Sensor Filter Display Monitor Format.

Lemma length_sensor_samples n : forall seed, length (sensor_samples n seed) = n.
Proof.
  induction n as [|n IH]; intros seed; [reflexivity|].
  cbn [sensor_samples]. destruct (sensor_step seed) as [seed' t].
  cbn [length]. rewrite IH. reflexivity.
Qed.

Lemma sensor_samples_range n seed :
  Forall (fun t => 15 <= t <= 35) (sensor_samples n seed).
Proof.
  rewrite sensor_samples_prng. apply List.Forall_forall. intros t Ht.
  apply in_map_iff in Ht. destruct Ht as [r [<- _]].
  pose proof (Z.mod_pos_bound r 21 ltac:(lia)). lia.
Qed.

(** X26. From sensor to screen.  After a change to a window size in
    [1,100], whatever the seed, every value the filter emits for the
    sensor's samples lies in [15,35]; the renderer maps it to the height
    (v-15)*15/20 without clamping, and the overlay is "T: ", the two
    digits of the value and "C", six characters in the 50-byte buffer. *)
Theorem sensor_to_screen W st0 seed n :
  1 <= W <= MAX_WINDOW_SIZE ->
  window_size st0 <> W ->
  exists outs,
    outputs W (sensor_samples n seed) st0 = Done outs
    /\ length outs = n
    /\ Forall (fun v =>
                15 <= v <= 35
                /\ graph_height v = (v - 15) * 15 / 20
                /\ forall stack, length stack = 10%nat ->
                     overlay v stack = Done ("T: " ++ utoa v 10 ++ "C")%string
                     /\ String.length ("T: " ++ utoa v 10 ++ "C") = 6%nat) outs.
Proof.
  intros HW Hne.
  destruct (outputs_between W st0 (sensor_samples n seed) 15 35 HW Hne
              ltac:(lia) ltac:(lia) (sensor_samples_range n seed))
    as [outs [Hout [Hlen Hrange]]].
  exists outs. split; [exact Hout|].
  split; [rewrite Hlen; apply length_sensor_samples|].
  eapply Forall_impl; [exact Hrange|]. cbn beta. intros v Hv.
  split; [exact Hv|]. split.
  - rewrite graph_height_spec by (unfold in_int, int_min, int_max; lia).
    unfold spec_height, MIN_TEMPERATURE, MAX_HEIGHT, TEMPERATURE_RANGE.
    assert (0 <= (v - 15) * 15 / 20 <= 15).
    { split; [apply Z.div_pos; lia|apply Z.div_le_upper_bound; lia]. }
    lia.
  - intros stack Hstack. split.
    + unfold overlay. apply formatString_nonneg; [|exact Hstack].
      change (10 ^ 9) with 1000000000. lia.
    + rewrite !string_length_app, utoa_length_small by lia.
      destruct (Z.ltb_spec v 10); [lia|]. destruct (Z.ltb_spec v 100); [|lia].
      reflexivity.
Qed.

Lemma sensor_to_screen_witness :
  exists outs,
    outputs 10 (sensor_samples 4 initial_seed) (task_init 5 (replicate 100 0)) = Done outs
    /\ length outs = 4%nat.
Proof.
  destruct (sensor_to_screen 10 (task_init 5 (replicate 100 0)) initial_seed 4)
    as [outs [H1 [H2 _]]].
  - unfold MAX_WINDOW_SIZE. lia.
  - cbn. lia.
  - exists outs. split; assumption.
Defined.

End PipelineFacts.

(** ** The stack monitor *)

Section StackReportFacts.

Import Monitor Format.

(** X27. The stack report.  For four high water marks below 10^9 one round
    of [vMonitorStackTask] sends the heading and four lines, each the
    task's label, the mark in decimal and a newline; with the longest
    label (16 characters) a line has at most 26 characters, within the
    50-byte buffer it is formatted in. *)
Theorem stack_report_lines stackTemp stackFilter stackGraph stackUART stack :
  0 <= stackTemp < 10 ^ 9 -> 0 <= stackFilter < 10 ^ 9 ->
  0 <= stackGraph < 10 ^ 9 -> 0 <= stackUART < 10 ^ 9 ->
  length stack = 10%nat ->
  stack_report stackTemp stackFilter stackGraph stackUART stack
  = Done (lf ++ "Stack High Water Marks:" ++ lf
            ++ ("TempSensor HWM: " ++ utoa stackTemp 10 ++ lf)
            ++ ("FilterTask HWM: " ++ utoa stackFilter 10 ++ lf)
            ++ ("GraphTask HWM: " ++ utoa stackGraph 10 ++ lf)
            ++ ("UARTReader HWM: " ++ utoa stackUART 10 ++ lf))%string
  /\ Forall (fun v => (String.length ("TempSensor HWM: " ++ utoa v 10 ++ lf) <= 26)%nat)
       [stackTemp; stackFilter; stackGraph; stackUART].
Proof.
  intros H1 H2 H3 H4 Hstack.
  assert (H9 : 10 ^ 9 = 1000000000) by reflexivity.
  split.
  - unfold stack_report.
    rewrite !wrap_int_small by (unfold in_int, int_min, int_max; lia).
    rewrite !formatString_nonneg by assumption. reflexivity.
  - assert (Hlen : forall v, 0 <= v < 10 ^ 9 ->
              (String.length ("TempSensor HWM: " ++ utoa v 10 ++ lf) <= 26)%nat).
    { intros v Hv. destruct (utoa_decimal v Hv) as [ds [Hu [_ [_ [Hl _]]]]].
      rewrite !string_length_app, Hu, length_string_of. cbn [String.length lf]. lia. }
    do 4 (constructor; [apply Hlen; assumption|]). constructor.
Qed.

Lemma stack_report_lines_witness :
  stack_report 40 35 20 61 (list_ascii_of_string "0123456789")
  = Done (lf ++ "Stack High Water Marks:" ++ lf
            ++ ("TempSensor HWM: " ++ utoa 40 10 ++ lf)
            ++ ("FilterTask HWM: " ++ utoa 35 10 ++ lf)
            ++ ("GraphTask HWM: " ++ utoa 20 10 ++ lf)
            ++ ("UARTReader HWM: " ++ utoa 61 10 ++ lf))%string.
Proof.
  refine (proj1 (stack_report_lines 40 35 20 61 (list_ascii_of_string "0123456789")
                   _ _ _ _ _)); try lia.
  reflexivity.
Defined.

End StackReportFacts.
